(** * better-markdown-to-pdf: the Markdown rendering core ([src/lib/markdown.ts])

    A shallow embedding of the math grammar extension ([blockMathRule],
    [inlineMathRule]), of the render rules for math and fence tokens, of
    [escapeHtml] and of [renderMarkdownSafe], with the properties the
    specification states about them.

    JavaScript strings are sequences of UTF-16 code units; [charCodeAt],
    [slice], [indexOf], [trim] and [replace] are written out on lists of
    code units.  The host parser (markdown-it), the math engine (KaTeX), the
    highlighter (highlight.js) and the sanitizer (DOMPurify) are libraries
    the file calls: the parser state the rules read and write is modelled as
    a record, the other three are section variables. *)

From Stdlib Require Import List NArith ZArith Arith Bool String Ascii Lia.
Import ListNotations.

Set Implicit Arguments.

(* ================================================================== *)
(** ** JavaScript strings *)

Module JS.

Definition code_unit := N.
Definition jsstring := list code_unit.

(** A literal of the source, as code units (ASCII text only). *)
Definition str (s : string) : jsstring :=
  List.map N_of_ascii (list_ascii_of_string s).

Definition DOLLAR : code_unit := 36%N.      (* 0x24 *)
Definition BACKSLASH : code_unit := 92%N.   (* 0x5c *)
Definition AMP : code_unit := 38%N.
Definition LT : code_unit := 60%N.
Definition GT : code_unit := 62%N.
Definition QUOT : code_unit := 34%N.
Definition LF : code_unit := 10%N.
Definition TAB : code_unit := 9%N.
Definition SPACE : code_unit := 32%N.

(** [s.charCodeAt(i)]: [None] stands for NaN (index out of range). *)
Definition charCodeAt (s : jsstring) (i : nat) : option code_unit :=
  nth_error s i.

(** [s.charCodeAt(i) === c]; NaN is equal to nothing. *)
Definition code_is (o : option code_unit) (c : code_unit) : bool :=
  match o with
  | Some x => N.eqb x c
  | None => false
  end.

(** [s.slice(a, b)] for non-negative integer arguments: both ends are
    clamped to the length, and the result is empty when [b <= a]. *)
Definition slice (s : jsstring) (a b : nat) : jsstring :=
  firstn (b - a) (skipn a s).

Fixpoint eqb (a b : jsstring) : bool :=
  match a, b with
  | [], [] => true
  | x :: a', y :: b' => N.eqb x y && eqb a' b'
  | _, _ => false
  end.

Fixpoint startsWith (pat s : jsstring) : bool :=
  match pat, s with
  | [], _ => true
  | p :: pat', c :: s' => N.eqb p c && startsWith pat' s'
  | _ :: _, [] => false
  end.

Fixpoint indexOf_aux (pat s : jsstring) (k : nat) : option nat :=
  if startsWith pat s then Some k
  else match s with
       | [] => None
       | _ :: s' => indexOf_aux pat s' (S k)
       end.

(** [s.indexOf(pat, from)]: the least index [k >= from] at which [pat]
    occurs, [None] for -1. *)
Definition indexOf (s pat : jsstring) (from : nat) : option nat :=
  let from' := Nat.min from (List.length s) in
  indexOf_aux pat (skipn from' s) from'.

(** WhiteSpace and LineTerminator code points, what [trim] strips. *)
Definition is_white (c : code_unit) : bool :=
  ((9 <=? c) && (c <=? 13) || (c =? 32) || (c =? 160) || (c =? 5760)
   || (8192 <=? c) && (c <=? 8202) || (c =? 8232) || (c =? 8233)
   || (c =? 8239) || (c =? 8287) || (c =? 12288) || (c =? 65279))%N.

Fixpoint trimStart (s : jsstring) : jsstring :=
  match s with
  | c :: s' => if is_white c then trimStart s' else s
  | [] => []
  end.

Definition trimEnd (s : jsstring) : jsstring := rev (trimStart (rev s)).

Definition trim (s : jsstring) : jsstring := trimEnd (trimStart s).

(** [s.replace(/c/g, r)] for a one-character pattern. *)
Definition replace_all (c : code_unit) (r : jsstring) (s : jsstring) : jsstring :=
  flat_map (fun x => if N.eqb x c then r else [x]) s.

(** A literal between double quotes, as in the attribute values of the
    source's templates. *)
Definition dq (s : string) : jsstring := QUOT :: str s ++ [QUOT].

(** Truthiness of a string: only the empty string is falsy. *)
Definition truthy (s : jsstring) : bool :=
  match s with
  | [] => false
  | _ :: _ => true
  end.

(** What a call can do: return a string or throw.  A thrown value is an
    [Error] carrying a message, or some other value. *)
Inductive thrown : Type :=
  | Error (message : jsstring)
  | NotAnError.

Inductive completion : Type :=
  | Returns (value : jsstring)
  | Throws (e : thrown).

(** [try { body } catch (e) { handler }] *)
Definition try_catch (body : completion) (handler : thrown -> completion) : completion :=
  match body with
  | Returns value => Returns value
  | Throws e => handler e
  end.

(** Sequencing: a throw in [c] skips [k]. *)
Definition bind (c : completion) (k : jsstring -> completion) : completion :=
  match c with
  | Returns value => k value
  | Throws e => Throws e
  end.

End JS.

Import JS.

Declare Scope js_scope.
Delimit Scope js_scope with js.
Notation "a +++ b" := (@app code_unit a b) (at level 60, right associativity) : js_scope.
Notation "x <- c ;; k" := (JS.bind c (fun x => k))
  (at level 61, c at next level, right associativity) : js_scope.
Open Scope js_scope.

(* ================================================================== *)
(** ** [escapeHtml] *)

(** Four global replacements chained in the source's order: [&] first, then
    [<], then [>], then the double quote (code unit 34); the single quote
    is left alone. *)
Definition escapeHtml (s : jsstring) : jsstring :=
  replace_all QUOT (str "&quot;")
    (replace_all GT (str "&gt;")
      (replace_all LT (str "&lt;")
        (replace_all AMP (str "&amp;") s))).

(** The reading of "HTML-unescaped" for text produced by [escapeHtml]: one
    left-to-right pass that decodes the four named character references
    [&amp;], [&lt;], [&gt;] and [&quot;] and copies everything else. *)
Fixpoint unescapeHtml_fuel (n : nat) (s : jsstring) : jsstring :=
  match n with
  | O => []
  | S n' =>
    match s with
    | [] => []
    | c :: rest =>
      if negb (N.eqb c AMP) then c :: unescapeHtml_fuel n' rest
      else if startsWith (str "amp;") rest then AMP :: unescapeHtml_fuel n' (skipn 4 rest)
      else if startsWith (str "lt;") rest then LT :: unescapeHtml_fuel n' (skipn 3 rest)
      else if startsWith (str "gt;") rest then GT :: unescapeHtml_fuel n' (skipn 3 rest)
      else if startsWith (str "quot;") rest then QUOT :: unescapeHtml_fuel n' (skipn 5 rest)
      else c :: unescapeHtml_fuel n' rest
    end
  end.

Definition unescapeHtml (s : jsstring) : jsstring :=
  unescapeHtml_fuel (List.length s) s.

(* ================================================================== *)
(** ** Tokens and the host parser's states *)

(** A token of the host parser, with the fields this program reads or
    writes.  [map] is the line range [begin, end). *)
Module Token.
Record t : Type := mk {
  type : string;
  tag : string;
  nesting : Z;
  level : nat;
  content : jsstring;
  info : jsstring;
  map : option (nat * nat);
  block : bool
}.

(** [new Token(type, tag, nesting)] *)
Definition new (type tag : string) (nesting : Z) : t :=
  mk type tag nesting 0 [] [] None false.

Definition set_content (c : jsstring) (k : t) : t :=
  mk (type k) (tag k) (nesting k) (level k) c (info k) (map k) (block k).

Definition set_map (m : nat * nat) (k : t) : t :=
  mk (type k) (tag k) (nesting k) (level k) (content k) (info k) (Some m) (block k).

Definition set_level (l : nat) (k : t) : t :=
  mk (type k) (tag k) (nesting k) l (content k) (info k) (map k) (block k).

Definition set_block (b : bool) (k : t) : t :=
  mk (type k) (tag k) (nesting k) (level k) (content k) (info k) (map k) b.

Definition is_math (k : t) : bool :=
  String.eqb (type k) "math_block" || String.eqb (type k) "math_inline".
End Token.

(** The math tokens of a token stream. *)
Definition math_tokens (l : list Token.t) : list Token.t :=
  filter Token.is_math l.

(** The block-level state: the source, the line table ([bMarks],
    [eMarks], [tShift], [sCount], [bsCount], one entry per line and a fake
    entry after the last), the line cursor and the output tokens. *)
Module StateBlock.
Record t : Type := mk {
  src : jsstring;
  bMarks : list nat;
  eMarks : list nat;
  tShift : list nat;
  sCount : list nat;
  bsCount : list nat;
  line : nat;
  lineMax : nat;
  level : nat;
  tokens : list Token.t
}.

Definition set_line (l : nat) (s : t) : t :=
  mk (src s) (bMarks s) (eMarks s) (tShift s) (sCount s) (bsCount s)
     l (lineMax s) (level s) (tokens s).

(** Modelled from the spec: the host parser is a library this repository
    only calls.  [state.push(type, tag, 0)] appends a fresh block token at
    the current nesting level; [fill] stands for the assignments the caller
    makes through the returned token. *)
Definition push (s : t) (type tag : string) (fill : Token.t -> Token.t) : t :=
  let token := Token.set_level (level s) (Token.set_block true (Token.new type tag 0%Z)) in
  mk (src s) (bMarks s) (eMarks s) (tShift s) (sCount s) (bsCount s)
     (line s) (lineMax s) (level s) (tokens s ++ [fill token]).

(** [ch] is a space or a tab (the host's [isSpace]). *)
Definition isSpace (ch : code_unit) : bool :=
  N.eqb ch TAB || N.eqb ch SPACE.

(** Modelled from the spec: the line table the host builds for a source.
    Lines end at a line feed or at the end of the source; [tShift] counts
    the leading spaces and tabs of a line, [sCount] their width with tabs
    expanded to multiples of four.  A last line made of indentation only is
    not recorded, as in the host. *)
Fixpoint scan_lines (s : jsstring) (pos start indent offset : nat) (indent_found : bool)
  : list (nat * nat * nat * nat) :=
  match s with
  | [] => []
  | ch :: rest =>
    if negb indent_found && isSpace ch then
      scan_lines rest (S pos) start (S indent)
        (if N.eqb ch TAB then offset + (4 - offset mod 4) else S offset) false
    else if N.eqb ch LF then
      (start, pos, indent, offset) :: scan_lines rest (S pos) (S pos) 0 0 false
    else
      match rest with
      | [] => [(start, S pos, indent, offset)]
      | _ :: _ => scan_lines rest (S pos) start indent offset true
      end
  end.

(** Modelled from the spec: [new StateBlock(src, ...)], with the fake entry
    after the last line and an empty token stream. *)
Definition new (s : jsstring) : t :=
  let rows := scan_lines s 0 0 0 0 false in
  let len := List.length s in
  mk s
     (List.map (fun r => fst (fst (fst r))) rows ++ [len])
     (List.map (fun r => snd (fst (fst r))) rows ++ [len])
     (List.map (fun r => snd (fst r)) rows ++ [0])
     (List.map (fun r => snd r) rows ++ [0])
     (List.map (fun _ => 0) rows ++ [0])
     0 (List.length rows) 0 [].

(** One line of [getLines]: skip up to [indent] columns of leading
    white space, a tab filling up to the next multiple of four. *)
Fixpoint strip_indent (st : t) (ln lineStart indent : nat)
  (fuel first last lineIndent : nat) : nat * nat :=
  match fuel with
  | O => (first, lineIndent)
  | S fuel' =>
    if (first <? last) && (lineIndent <? indent) then
      let ch := charCodeAt (src st) first in
      if code_is ch TAB || code_is ch SPACE then
        strip_indent st ln lineStart indent fuel' (S first) last
          (if code_is ch TAB
           then lineIndent + (4 - (lineIndent + nth ln (bsCount st) 0) mod 4)
           else S lineIndent)
      else if first - lineStart <? nth ln (tShift st) 0 then
        strip_indent st ln lineStart indent fuel' (S first) last (S lineIndent)
      else (first, lineIndent)
    else (first, lineIndent)
  end.

Definition getLine (st : t) (ln indent : nat) (withLF : bool) : jsstring :=
  let lineStart := nth ln (bMarks st) 0 in
  let last := if withLF then S (nth ln (eMarks st) 0) else nth ln (eMarks st) 0 in
  let '(first, lineIndent) :=
    strip_indent st ln lineStart indent (last - lineStart) lineStart last 0 in
  repeat SPACE (lineIndent - indent) ++ slice (src st) first last.

(** Modelled from the spec: [state.getLines(begin, end, indent,
    keepLastLF)], the text of lines [begin .. end-1] joined, each line but
    possibly the last keeping its line feed. *)
Fixpoint getLines_from (st : t) (ln n indent : nat) (keepLastLF : bool) : jsstring :=
  match n with
  | O => []
  | S n' =>
    getLine st ln indent (match n' with O => keepLastLF | S _ => true end)
      ++ getLines_from st (S ln) n' indent keepLastLF
  end.

Definition getLines (st : t) (begin end_ indent : nat) (keepLastLF : bool) : jsstring :=
  getLines_from st begin (end_ - begin) indent keepLastLF.
End StateBlock.

(** The inline-level state: the inline content [src], the cursor [pos],
    the end [posMax], the text run not yet emitted ([pending]) and the
    output tokens. *)
Module StateInline.
Record t : Type := mk {
  src : jsstring;
  pos : nat;
  posMax : nat;
  level : nat;
  pending : jsstring;
  pendingLevel : nat;
  tokens : list Token.t
}.

Definition set_pos (p : nat) (s : t) : t :=
  mk (src s) p (posMax s) (level s) (pending s) (pendingLevel s) (tokens s).

(** Modelled from the spec: [state.pushPending()], the pending text run
    becomes a text token. *)
Definition pushPending (s : t) : t :=
  let token := Token.set_level (pendingLevel s)
                 (Token.set_content (pending s) (Token.new "text" EmptyString 0%Z)) in
  mk (src s) (pos s) (posMax s) (level s) [] (pendingLevel s) (tokens s ++ [token]).

(** Modelled from the spec: [state.push(type, tag, 0)] first flushes a
    non-empty pending text run, then appends a fresh token; [fill] stands
    for the assignments made through the returned token. *)
Definition push (s : t) (type tag : string) (fill : Token.t -> Token.t) : t :=
  let s1 := if truthy (pending s) then pushPending s else s in
  let token := Token.set_level (level s1) (Token.new type tag 0%Z) in
  mk (src s1) (pos s1) (posMax s1) (level s1) (pending s1) (level s1)
     (tokens s1 ++ [fill token]).

(** A state at the start of an inline content. *)
Definition new (s : jsstring) : t :=
  mk s 0 (List.length s) 0 [] 0 [].
End StateInline.

(* ================================================================== *)
(** ** The math grammar extension ([addLatexSupport]) *)

(** The text of line [ln] from its first non-blank character to its end,
    [state.src.slice(state.bMarks[ln] + state.tShift[ln], state.eMarks[ln])].
    Line numbers are in range in every call the host makes
    ([startLine < endLine <= lineMax], and the table has a fake entry at
    [lineMax]). *)
Definition line_text (state : StateBlock.t) (ln : nat) : jsstring :=
  slice (StateBlock.src state)
        (nth ln (StateBlock.bMarks state) 0 + nth ln (StateBlock.tShift state) 0)
        (nth ln (StateBlock.eMarks state) 0).

(** The loop [for (nextLine = startLine + 1; nextLine < endLine; nextLine++)]
    of the multi-line form, with [n] iterations left: the first line whose
    trimmed text is [$$]. *)
Fixpoint find_closing_line (state : StateBlock.t) (nextLine n : nat) : option nat :=
  match n with
  | O => None
  | S n' =>
    if JS.eqb (trim (line_text state nextLine)) (str "$$") then Some nextLine
    else find_closing_line state (S nextLine) n'
  end.

(** The multi-line branch of [blockMathRule]: scan for the closing line,
    decline when there is none. *)
Definition blockMath_multi_line (state : StateBlock.t) (startLine endLine : nat)
  (silent : bool) : bool * StateBlock.t :=
  match find_closing_line state (startLine + 1) (endLine - (startLine + 1)) with
  | None => (false, state)                       (* if (!found) return false *)
  | Some nextLine =>
    if silent then (true, state)
    else
      let content :=
        trim (StateBlock.getLines state (startLine + 1) nextLine
                (nth startLine (StateBlock.tShift state) 0) false) in
      let state1 := StateBlock.push state "math_block" "div"
                      (fun token => Token.set_map (startLine, nextLine + 1)
                                      (Token.set_content content token)) in
      (true, StateBlock.set_line (nextLine + 1) state1)
  end.

(** [blockMathRule(state, startLine, endLine, silent)]: the returned flag
    and the state after the call. *)
Definition blockMathRule (state : StateBlock.t) (startLine endLine : nat) (silent : bool)
  : bool * StateBlock.t :=
  let src := StateBlock.src state in
  let startPos := nth startLine (StateBlock.bMarks state) 0
                  + nth startLine (StateBlock.tShift state) 0 in
  let maxPos := nth startLine (StateBlock.eMarks state) 0 in
  (* Check for opening $$ *)
  if maxPos <? startPos + 2 then (false, state)
  else if negb (JS.eqb (slice src startPos (startPos + 2)) (str "$$")) then (false, state)
  else
    (* Check if it's on the same line *)
    match indexOf src (str "$$") (startPos + 2) with
    | Some sameLineEnd =>
      if sameLineEnd <? maxPos then
        (* Single line block math *)
        if silent then (true, state)
        else
          let content := trim (slice src (startPos + 2) sameLineEnd) in
          let state1 := StateBlock.push state "math_block" "div"
                          (fun token => Token.set_map (startLine, startLine + 1)
                                          (Token.set_content content token)) in
          (true, StateBlock.set_line (startLine + 1) state1)
      else blockMath_multi_line state startLine endLine silent
    | None => blockMath_multi_line state startLine endLine silent
    end.

(** The test of the scanning loop at index [k],
    [char === 0x24 && state.src.charCodeAt(k - 1) !== 0x5c]: a [$] whose
    preceding code unit is not a backslash. *)
Definition closes (src : jsstring) (k : nat) : bool :=
  code_is (charCodeAt src k) DOLLAR
  && negb (code_is (charCodeAt src (k - 1)) BACKSLASH).

(** The loop [while (end < max)] of the inline rule, with [n] iterations
    left: stop at the first index that [closes], else run to [max].  The
    loop starts at [start + 1], so [end - 1] never falls below 0. *)
Fixpoint scan_closing (src : jsstring) (end_ n : nat) : nat :=
  match n with
  | O => end_
  | S n' =>
    if closes src end_ then end_
    else scan_closing src (S end_) n'
  end.

(** [inlineMathRule(state, silent)]: the returned flag and the state after
    the call. *)
Definition inlineMathRule (state : StateInline.t) (silent : bool)
  : bool * StateInline.t :=
  let src := StateInline.src state in
  let start := StateInline.pos state in
  let max := StateInline.posMax state in
  (* Check for opening $ *)
  if negb (code_is (charCodeAt src start) DOLLAR) then (false, state)
  (* Don't match $$ (that's block math) *)
  else if (start + 1 <? max) && code_is (charCodeAt src (start + 1)) DOLLAR
  then (false, state)
  (* Don't match escaped \$ *)
  else if (0 <? start) && code_is (charCodeAt src (start - 1)) BACKSLASH
  then (false, state)
  else
    (* Find closing $ *)
    let end_ := scan_closing src (start + 1) (max - (start + 1)) in
    if max <=? end_ then (false, state)
    else
      let content := slice src (start + 1) end_ in
      (* Avoid empty content or content with only spaces *)
      if negb (truthy (trim content)) then (false, state)
      else
        let state1 :=
          if silent then state
          else StateInline.push state "math_inline" "span" (Token.set_content content) in
        (true, StateInline.set_pos (end_ + 1) state1).

(** The rule chains of the host: the rules are tried in order at the
    current position and the first one that matches ends the search. *)
Definition BlockRule : Type := StateBlock.t -> nat -> nat -> bool -> bool * StateBlock.t.
Definition InlineRule : Type := StateInline.t -> bool -> bool * StateInline.t.

Fixpoint try_block_rules (rules : list BlockRule) (state : StateBlock.t)
  (line endLine : nat) : bool * StateBlock.t :=
  match rules with
  | [] => (false, state)
  | rule :: rest =>
    let '(ok, state') := rule state line endLine false in
    if ok then (true, state') else try_block_rules rest state' line endLine
  end.

Fixpoint try_inline_rules (rules : list InlineRule) (state : StateInline.t)
  : bool * StateInline.t :=
  match rules with
  | [] => (false, state)
  | rule :: rest =>
    let '(ok, state') := rule state false in
    if ok then (true, state') else try_inline_rules rest state'
  end.

(* ================================================================== *)
(** ** Render rules *)

Section Renderers.

(** [katex.renderToString(content, {displayMode, throwOnError: false,
    trust: true, strict: false})] *)
Variable katex_renderToString : jsstring -> bool -> completion.

(** [hljs.getLanguage(lang)] is truthy; [hljs.highlight(str, {language,
    ignoreIllegals: true}).value] *)
Variable hljs_getLanguage : jsstring -> bool.
Variable hljs_highlight : jsstring -> jsstring -> completion.

(** [e instanceof Error ? e.message : 'Unknown error'] *)
Definition errorMessage (e : thrown) : jsstring :=
  match e with
  | Error message => message
  | NotAnError => str "Unknown error"
  end.

(** [md.renderer.rules.math_block] *)
Definition math_block (token : Token.t) : completion :=
  let content := Token.content token in
  try_catch
    (rendered <- katex_renderToString content true ;;
     Returns (str "<div class=" +++ dq "katex-block" +++ str ">" +++ rendered
                +++ str "</div>"))
    (fun e =>
       Returns (str "<div class=" +++ dq "math-error" +++ str ">Math error: "
                  +++ escapeHtml (errorMessage e) +++ str "</div>")).

(** [md.renderer.rules.math_inline] *)
Definition math_inline (token : Token.t) : completion :=
  let content := Token.content token in
  try_catch
    (rendered <- katex_renderToString content false ;;
     Returns rendered)
    (fun e =>
       Returns (str "<span class=" +++ dq "math-error" +++ str ">Math error: "
                  +++ escapeHtml (errorMessage e) +++ str "</span>")).

(** The [highlight] option given to the host: the highlighter's markup when
    the language is known and highlighting does not throw, the escaped
    text otherwise. *)
Definition highlight (s lang : jsstring) : completion :=
  if truthy lang && hljs_getLanguage lang then
    try_catch (hljs_highlight s lang)
      (fun _ => Returns (escapeHtml s))          (* fall through to default *)
  else Returns (escapeHtml s).

(** [md.renderer.rules.fence] *)
Definition fence (token : Token.t) : completion :=
  let lang := trim (Token.info token) in
  (* Mermaid blocks should not be wrapped in pre/code *)
  if JS.eqb lang (str "mermaid") then
    Returns (str "<div class=" +++ dq "mermaid" +++ str ">"
               +++ escapeHtml (Token.content token) +++ str "</div>")
  else
    (* For other languages, use default fence with hljs wrapper *)
    h <- highlight (Token.content token) lang ;;
    let code := if truthy h then h else escapeHtml (Token.content token) in
    let langClass :=
      if truthy lang
      then str " class=" +++ [QUOT] +++ str "language-" +++ lang +++ [QUOT]
      else [] in
    Returns (str "<pre class=" +++ dq "hljs" +++ str "><code" +++ langClass +++ str ">"
               +++ code +++ str "</code></pre>").

(** Modelled from the spec: the host renderer applies the render rule
    of every token in order and concatenates the fragments.  [default_rule]
    stands for the host's own rules, used for the token kinds this program
    does not override. *)
Variable default_rule : Token.t -> completion.

Definition render_rule (token : Token.t) : completion :=
  if String.eqb (Token.type token) "math_block" then math_block token
  else if String.eqb (Token.type token) "math_inline" then math_inline token
  else if String.eqb (Token.type token) "fence" then fence token
  else default_rule token.

Fixpoint render (tokens : list Token.t) : completion :=
  match tokens with
  | [] => Returns []
  | token :: rest =>
    fragment <- render_rule token ;;
    result <- render rest ;;
    Returns (fragment +++ result)
  end.

End Renderers.

(* ================================================================== *)
(** ** The render pipeline *)

(** The options of the host parser; an absent field is [None]. *)
Record MarkdownItOptions : Type := {
  html : option bool;
  linkify : option bool;
  typographer : option bool;
  breaks : option bool
}.

Record MarkdownOptions : Type := {
  mo_html : option bool;
  mo_linkify : option bool;
  mo_typographer : option bool;
  mo_breaks : option bool;
  mo_gfm : option bool
}.

Record RenderOptions : Type := {
  sanitize : option bool;
  markdownOptions : option MarkdownOptions
}.

(** The configuration [createMarkdownRenderer] hands to the host's
    constructor: [html ?? true], [linkify ?? true], [typographer ?? true],
    [breaks ?? false]. *)
Definition resolved_options (options : MarkdownItOptions) : bool * bool * bool * bool :=
  (match html options with Some b => b | None => true end,
   match linkify options with Some b => b | None => true end,
   match typographer options with Some b => b | None => true end,
   match breaks options with Some b => b | None => false end).

(** [Object.keys(markdownOptions).length > 0] *)
Definition has_keys (o : MarkdownOptions) : bool :=
  match mo_html o, mo_linkify o, mo_typographer o, mo_breaks o, mo_gfm o with
  | None, None, None, None, None => false
  | _, _, _, _, _ => true
  end.

Section Pipeline.

(** The host parser and the sanitizer are libraries.  [MarkdownIt] is the
    type of the host's instances, [new_MarkdownIt] stands for what
    [createMarkdownRenderer] builds from a configuration (the constructor
    call followed by the rules the function installs), [md_render] for the
    method [render] of an instance, and [DOMPurify_sanitize] for
    [DOMPurify.sanitize(html, ...)] with the allow-list of the source. *)
Variable MarkdownIt : Type.
Variable new_MarkdownIt : bool * bool * bool * bool -> MarkdownIt.
Variable md_render : MarkdownIt -> jsstring -> jsstring.
Variable DOMPurify_sanitize : jsstring -> jsstring.

Definition createMarkdownRenderer (options : MarkdownItOptions) : MarkdownIt :=
  new_MarkdownIt (resolved_options options).

(** The module variable [mdInstance] ([null] is [None]) is threaded through
    the functions that read or write it: each takes its value before the call
    and returns its value after the call next to the result. *)
Definition getMarkdownRenderer (mdInstance : option MarkdownIt)
  : MarkdownIt * option MarkdownIt :=
  match mdInstance with
  | Some md => (md, mdInstance)
  | None =>
    let md := createMarkdownRenderer (Build_MarkdownItOptions None None None None) in
    (md, Some md)
  end.

Definition renderMarkdown (mdInstance : option MarkdownIt) (content : jsstring)
  : jsstring * option MarkdownIt :=
  let '(md, mdInstance) := getMarkdownRenderer mdInstance in
  (md_render md content, mdInstance).

Definition renderMarkdownWithOptions (mdInstance : option MarkdownIt)
  (content : jsstring) (markdownOptions : option MarkdownOptions)
  : jsstring * option MarkdownIt :=
  match markdownOptions with
  | Some o =>
    if has_keys o then
      let customMd :=
        createMarkdownRenderer
          (Build_MarkdownItOptions (mo_html o) (mo_linkify o)
             (mo_typographer o) (mo_breaks o)) in
      (md_render customMd content, mdInstance)
    else renderMarkdown mdInstance content
  | None => renderMarkdown mdInstance content
  end.

Definition renderMarkdownSafe (mdInstance : option MarkdownIt)
  (content : jsstring) (options : RenderOptions) : jsstring * option MarkdownIt :=
  let '(html, mdInstance) :=
    renderMarkdownWithOptions mdInstance content (markdownOptions options) in
  match sanitize options with
  | Some false => (html, mdInstance)
  | _ => (DOMPurify_sanitize html, mdInstance)   (* options.sanitize !== false *)
  end.

End Pipeline.

(* ================================================================== *)
(** ** Auxiliary definitions and the documents of the statements *)

(** What [escapeHtml] makes of one code unit. *)
Definition escape_unit (c : code_unit) : jsstring :=
  if N.eqb c AMP then str "&amp;"
  else if N.eqb c LT then str "&lt;"
  else if N.eqb c GT then str "&gt;"
  else if N.eqb c QUOT then str "&quot;"
  else [c].

(** A line feed. *)
Definition nl : jsstring := [LF].

(** The document [$$ y], [x^2]: an opening line and no closing line. *)
Definition unterminated_doc : StateBlock.t :=
  StateBlock.new (str "$$ y" +++ nl +++ str "x^2").

(** The inline content [\$10], with the cursor at [p]. *)
Definition escaped_price (p : nat) : StateInline.t :=
  StateInline.set_pos p (StateInline.new (str "\$10")).

(** How many times the code unit [c] occurs in [s]. *)
Definition occurrences (c : code_unit) (s : jsstring) : nat :=
  List.length (filter (N.eqb c) s).

(** A fence with a mermaid info string. *)
Definition mermaid_fence : Token.t :=
  Token.mk "fence" "code" 0 0 (str "A --> B & <C>") (str " mermaid ") None true.

(** A fence whose info string carries a double quote and a tag. *)
Definition hostile_fence : Token.t :=
  Token.mk "fence" "code" 0 0 (str "x") (str "a" +++ [QUOT] +++ str "><b>") None true.

(** A math engine that throws on every formula. *)
Definition failing_katex (_ : jsstring) (_ : bool) : completion :=
  Throws (Error (str "bad <formula>")).

(** The block rule at the first line of a document, outside silent mode,
    with the whole document to scan. *)
Definition run_block (doc : jsstring) : bool * StateBlock.t :=
  let state := StateBlock.new doc in
  blockMathRule state 0 (StateBlock.lineMax state) false.

(** The [math_block] token of a document that starts at line 0 and spans
    [lines] lines. *)
Definition math_block_token (content : jsstring) (lines : nat) : Token.t :=
  Token.mk "math_block" "div" 0 0 content [] (Some (0, lines)) true.



(** Case analysis along the branches of the block rule. *)
Ltac block_cases :=
  unfold blockMathRule, blockMath_multi_line; cbv zeta;
  repeat match goal with
         | |- context [if ?c then _ else _] => destruct c eqn:?
         | |- context [match ?c with Some _ => _ | None => _ end] => destruct c eqn:?
         end.

(* ================================================================== *)
(** ** More of JavaScript: strings, values and objects *)

From Stdlib Require Import Sorted.

Module JSLib.

(** [s.endsWith(suffix)] *)
Definition endsWith (s suffix : jsstring) : bool :=
  startsWith (rev suffix) (rev s).

(** [s.split(sep)] for a one-character separator: the pieces between the
    separators, empty pieces included; the empty string gives one empty
    piece. *)
Fixpoint split_on (sep : code_unit) (s : jsstring) : list jsstring :=
  match s with
  | [] => [[]]
  | c :: s' =>
    if N.eqb c sep then [] :: split_on sep s'
    else match split_on sep s' with
         | piece :: pieces => (c :: piece) :: pieces
         | [] => [[c]]
         end
  end.

(** [pieces.join(sep)] *)
Fixpoint join (sep : jsstring) (pieces : list jsstring) : jsstring :=
  match pieces with
  | [] => []
  | [piece] => piece
  | piece :: rest => piece ++ sep ++ join sep rest
  end.

#[local] Set Warnings "-register-all".

(** A JavaScript value, as far as configurations need them.  [VNum t] is
    the number [Number(t)] and [VJson t] the value [JSON.parse(t)], both
    kept as the text they come from. *)
Inductive jsvalue : Type :=
  | VUndefined
  | VBool (b : bool)
  | VStr (s : jsstring)
  | VNum (literal : jsstring)
  | VJson (text : jsstring)
  | VArr (items : list jsvalue)
  | VObj (fields : list (jsstring * jsvalue)).

(** [String(v)] for the values that are concatenated to strings. *)
Definition to_string (o : option jsstring) : jsstring :=
  match o with
  | Some s => s
  | None => str "undefined"
  end.

(** An element of an argument array: [undefined] past the end. *)
Definition of_arg (o : option jsstring) : jsvalue :=
  match o with
  | Some s => VStr s
  | None => VUndefined
  end.

(** [Array.isArray(v)] *)
Definition isArray (v : jsvalue) : bool :=
  match v with
  | VArr _ => true
  | _ => false
  end.

End JSLib.

Import JSLib.

(** Plain objects: the own properties in insertion order.  No key occurs
    twice in an object. *)
Module Obj.

Definition t : Type := list (jsstring * jsvalue).

(** [o[k]] (or [o.k]): [undefined] for a missing key. *)
Fixpoint get (o : t) (k : jsstring) : jsvalue :=
  match o with
  | [] => VUndefined
  | (k', v) :: o' => if JS.eqb k' k then v else get o' k
  end.

(** [k in o], for own properties. *)
Fixpoint has (o : t) (k : jsstring) : bool :=
  match o with
  | [] => false
  | (k', _) :: o' => JS.eqb k' k || has o' k
  end.

(** Defining the property [k]: an existing key keeps its place, a new key
    goes last. *)
Fixpoint set (o : t) (k : jsstring) (v : jsvalue) : t :=
  match o with
  | [] => [(k, v)]
  | (k', v') :: o' =>
    if JS.eqb k' k then (k, v) :: o' else (k', v') :: set o' k v
  end.

(** [o[k] = v] for a key computed at run time and a value [v] that is no
    object, on an object [o] whose prototype chain has no data property
    named [__proto__]: the property [k] is defined on [o], except for the
    key [__proto__].  That key is the accessor of [Object.prototype]: the
    assignment calls its setter, which does nothing for a value that is no
    object, so [o] keeps the properties it has. *)
Definition assign (o : t) (k : jsstring) (v : jsvalue) : t :=
  if JS.eqb k (str "__proto__") then o else set o k v.

(** [{...base, ...over}] onto [base]: the properties of [over] are defined
    one after the other. *)
Definition spread (base over : t) : t :=
  fold_left (fun acc kv => set acc (fst kv) (snd kv)) over base.

(** What [...v] contributes to an object literal when [v] is an object or
    [undefined] (the values a configuration type allows there). *)
Definition entries (v : jsvalue) : t :=
  match v with
  | VObj fields => fields
  | _ => []
  end.

(** The keys are pairwise different. *)
Definition wf (o : t) : Prop := NoDup (List.map fst o).

End Obj.

(** Truthiness of the values a configuration holds.  A number or a parsed
    JSON text is not tested for truth anywhere in the code modelled here. *)
Definition truthy_value (v : jsvalue) : bool :=
  match v with
  | VUndefined => false
  | VBool b => b
  | VStr s => truthy s
  | VNum _ => true
  | VJson _ => true
  | VArr _ => true
  | VObj _ => true
  end.

(* ================================================================== *)
(** ** The command line ([cli.ts]) *)

Record Margin : Type := {
  top : jsstring;
  right : jsstring;
  bottom : jsstring;
  left : jsstring
}.

(** [margin.split(' ').filter(Boolean)] *)
Definition margin_parts (margin : jsstring) : list jsstring :=
  filter truthy (split_on SPACE margin).

(** [parseMargin(margin)]: the CSS margin shorthand. *)
Definition parseMargin (margin : jsstring) : Margin :=
  match margin_parts margin with
  | [a] => Build_Margin a a a a
  | [a; b] => Build_Margin a b a b
  | [a; b; c] => Build_Margin a b c b
  | a :: b :: c :: d :: _ => Build_Margin a b c d
  | [] => Build_Margin margin margin margin margin
  end.

(** The margin object stored in [pdf_options]. *)
Definition margin_value (m : Margin) : jsvalue :=
  VObj [(str "top", VStr (top m)); (str "right", VStr (right m));
        (str "bottom", VStr (bottom m)); (str "left", VStr (left m))].

Record ParsedArgs : Type := {
  inputs : list jsstring;
  output : option jsstring;
  config : Obj.t;
  help : bool;
  version : bool;
  watch : bool;
  asHtml : bool;
  configFile : option jsstring;
  devtools : bool
}.

(** How a run of the argument parser ends: with a result, with
    [process.exit(code)], or with a [TypeError] thrown by a method call on
    [undefined]. *)
Inductive ending (A : Type) : Type :=
  | Done (a : A)
  | Exit (code : nat)
  | TypeError.

Arguments Done {A} a.
Arguments Exit {A} code.
Arguments TypeError {A}.

Definition set_config (c : Obj.t) (r : ParsedArgs) : ParsedArgs :=
  Build_ParsedArgs (inputs r) (output r) c (help r) (version r) (watch r)
    (asHtml r) (configFile r) (devtools r).

(** [result.config.pdf_options = result.config.pdf_options || {}] followed
    by [result.config.pdf_options.k = v]. *)
Definition set_pdf_option (c : Obj.t) (k : jsstring) (v : jsvalue) : Obj.t :=
  let c1 := if truthy_value (Obj.get c (str "pdf_options")) then c
            else Obj.set c (str "pdf_options") (VObj []) in
  match Obj.get c1 (str "pdf_options") with
  | VObj fields => Obj.set c1 (str "pdf_options") (VObj (Obj.set fields k v))
  | _ => c1
  end.

(** [if (!c.k) c.k = []; if (Array.isArray(c.k)) c.k.push(v)] *)
Definition push_to (c : Obj.t) (k : jsstring) (v : jsvalue) : Obj.t :=
  let c1 := if truthy_value (Obj.get c k) then c else Obj.set c k (VArr []) in
  match Obj.get c1 k with
  | VArr items => Obj.set c1 k (VArr (items ++ [v]))
  | _ => c1
  end.

(** [arg === s] for a literal [s]. *)
Definition is_opt (arg : jsstring) (s : string) : bool := JS.eqb arg (str s).

Section ParseArgs.

(** [JSON.parse(text)] returns (rather than throws a [SyntaxError]). *)
Variable JSON_valid : jsstring -> bool.

(** One turn of the loop of [parseArgs] at the argument [arg], with [next]
    the argument after it ([undefined] at the end): the result so far
    updated, and whether [next] was consumed as the value of [arg]. *)
Definition parseArgs_step (result : ParsedArgs) (arg : jsstring) (next : option jsstring)
  : ending (ParsedArgs * bool) :=
  let c := config result in
  if is_opt arg "--help" || is_opt arg "-h" then
    Done (Build_ParsedArgs (inputs result) (output result) c true (version result)
            (watch result) (asHtml result) (configFile result) (devtools result), false)
  else if is_opt arg "--version" || is_opt arg "-v" then
    Done (Build_ParsedArgs (inputs result) (output result) c (help result) true
            (watch result) (asHtml result) (configFile result) (devtools result), false)
  else if is_opt arg "--watch" || is_opt arg "-w" then
    Done (Build_ParsedArgs (inputs result) (output result) c (help result) (version result)
            true (asHtml result) (configFile result) (devtools result), false)
  else if is_opt arg "--as-html" then
    Done (Build_ParsedArgs (inputs result) (output result)
            (Obj.set c (str "as_html") (VBool true)) (help result) (version result)
            (watch result) true (configFile result) (devtools result), false)
  else if is_opt arg "--highlight-style" then
    Done (set_config (Obj.set c (str "highlight_style") (of_arg next)) result, true)
  else if is_opt arg "--stylesheet" then
    Done (set_config (push_to c (str "stylesheet") (of_arg next)) result, true)
  else if is_opt arg "--css" then
    let current := match Obj.get c (str "css") with
                   | VStr s => s              (* result.config.css || '' *)
                   | _ => []
                   end in
    Done (set_config (Obj.set c (str "css") (VStr (current ++ to_string next))) result, true)
  else if is_opt arg "--format" then
    Done (set_config (set_pdf_option c (str "format") (of_arg next)) result, true)
  else if is_opt arg "--landscape" then
    Done (set_config (set_pdf_option c (str "landscape") (VBool true)) result, false)
  else if is_opt arg "--margin" then
    match next with
    | Some marginValue =>
      Done (set_config (set_pdf_option c (str "margin")
                          (margin_value (parseMargin marginValue))) result, true)
    | None => TypeError                        (* undefined.split *)
    end
  else if is_opt arg "--no-background" then
    Done (set_config (set_pdf_option c (str "printBackground") (VBool false)) result, false)
  else if is_opt arg "--title" then
    Done (set_config (Obj.set c (str "document_title") (of_arg next)) result, true)
  else if is_opt arg "--basedir" then
    Done (set_config (Obj.set c (str "basedir") (of_arg next)) result, true)
  else if is_opt arg "--config-file" then
    Done (Build_ParsedArgs (inputs result) (output result) c (help result) (version result)
            (watch result) (asHtml result) next (devtools result), true)
  else if is_opt arg "--page-media-type" then
    Done (set_config (Obj.set c (str "page_media_type") (of_arg next)) result, true)
  else if is_opt arg "--devtools" then
    Done (Build_ParsedArgs (inputs result) (output result)
            (Obj.set c (str "devtools") (VBool true)) (help result) (version result)
            (watch result) (asHtml result) (configFile result) true, false)
  else if is_opt arg "--launch-options" then
    match next with
    | Some text =>
      if JSON_valid text
      then Done (set_config (Obj.set c (str "launch_options") (VJson text)) result, true)
      else Exit 1
    | None => Exit 1                           (* JSON.parse(undefined) throws *)
    end
  else if is_opt arg "--markdown-options" then
    match next with
    | Some text =>
      if JSON_valid text
      then Done (set_config (Obj.set c (str "markdown_options") (VJson text)) result, true)
      else Exit 1
    | None => Exit 1
    end
  else if is_opt arg "--script" then
    match next with
    | Some value =>
      let entry :=
        if startsWith (str "http://") value || startsWith (str "https://") value
        then VObj [(str "url", VStr value)]
        else VObj [(str "path", VStr value)] in
      Done (set_config (push_to c (str "script") entry) result, true)
    | None => TypeError                        (* undefined.startsWith *)
    end
  else if is_opt arg "--md-file-encoding" then
    Done (set_config (Obj.set c (str "md_file_encoding") (of_arg next)) result, true)
  else if is_opt arg "--stylesheet-encoding" then
    Done (set_config (Obj.set c (str "stylesheet_encoding") (of_arg next)) result, true)
  else if negb (startsWith (str "-") arg) then
    (* Positional arguments *)
    Done (Build_ParsedArgs (inputs result ++ [arg]) (output result) c (help result)
            (version result) (watch result) (asHtml result) (configFile result)
            (devtools result), false)
  else Done (result, false).

(** The loop [while (i < args.length)]. *)
Fixpoint parseArgs_loop (args : list jsstring) (result : ParsedArgs)
  : ending ParsedArgs :=
  match args with
  | [] => Done result
  | arg :: rest =>
    match parseArgs_step result arg (hd_error rest) with
    | Done (result', consumed) =>
      if consumed then
        match rest with
        | [] => Done result'
        | _ :: rest' => parseArgs_loop rest' result'
        end
      else parseArgs_loop rest result'
    | Exit code => Exit code
    | TypeError => TypeError
    end
  end.

(** If exactly 2 inputs and the second looks like an output file, treat it
    as output. *)
Definition take_output (result : ParsedArgs) : ParsedArgs :=
  match inputs result with
  | [first; second] =>
    if endsWith second (str ".pdf") || endsWith second (str ".html")
       || JS.eqb second (str "-")
    then Build_ParsedArgs [first] (Some second) (config result) (help result)
           (version result) (watch result) (asHtml result) (configFile result)
           (devtools result)
    else result
  | _ => result
  end.

Definition initial_args : ParsedArgs :=
  Build_ParsedArgs [] None [] false false false false None false.

(** [parseArgs(args)] *)
Definition parseArgs (args : list jsstring) : ending ParsedArgs :=
  match parseArgs_loop args initial_args with
  | Done result => Done (take_output result)
  | Exit code => Exit code
  | TypeError => TypeError
  end.

End ParseArgs.

(** [mergeConfig(base, override)]:
    [{...base, ...override, pdf_options: {...base.pdf_options,
    ...override.pdf_options}}]. *)
Definition mergeConfig (base override : Obj.t) : Obj.t :=
  Obj.set (Obj.spread (Obj.spread [] base) override) (str "pdf_options")
    (VObj (Obj.spread (Obj.spread [] (Obj.entries (Obj.get base (str "pdf_options"))))
             (Obj.entries (Obj.get override (str "pdf_options"))))).

(** The options [parseArgs] recognises. *)
Definition known_options : list string :=
  ["--help"; "-h"; "--version"; "-v"; "--watch"; "-w"; "--as-html";
   "--highlight-style"; "--stylesheet"; "--css"; "--format"; "--landscape";
   "--margin"; "--no-background"; "--title"; "--basedir"; "--config-file";
   "--page-media-type"; "--devtools"; "--launch-options"; "--markdown-options";
   "--script"; "--md-file-encoding"; "--stylesheet-encoding"]%string.

(** The positionals of a parsed command line: the inputs, then the
    output when one was taken. *)
Definition positionals_of (r : ParsedArgs) : list jsstring :=
  inputs r ++ match output r with Some o => [o] | None => [] end.

(** [r] with more inputs pushed. *)
Definition push_inputs (files : list jsstring) (r : ParsedArgs) : ParsedArgs :=
  Build_ParsedArgs (inputs r ++ files) (output r) (config r) (help r) (version r)
    (watch r) (asHtml r) (configFile r) (devtools r).

(** [l] is [l'] with some elements left out, the order kept. *)
Inductive subseq {A : Type} : list A -> list A -> Prop :=
  | subseq_nil : subseq [] []
  | subseq_skip x l l' : subseq l l' -> subseq l (x :: l')
  | subseq_take x l l' : subseq l l' -> subseq (x :: l) (x :: l').

(** A configuration as its type declares it: an object whose
    [pdf_options], when present, is an object. *)
Definition config_ok (c : Obj.t) : Prop :=
  Obj.wf c
  /\ match Obj.get c (str "pdf_options") with
     | VUndefined => True
     | VObj fields => Obj.wf fields
     | _ => False
     end.

(** A margin value: not empty and without a space. *)
Definition margin_word (w : jsstring) : Prop := w <> [] /\ ~ In SPACE w.

(* ================================================================== *)
(** ** Frontmatter ([parseFrontmatter] of [index.ts]) *)

Definition CR : code_unit := 13%N.

(** [\r?\n] at the head of [s]: what follows it. *)
Definition eat_newline (s : jsstring) : option jsstring :=
  match s with
  | c :: rest =>
    if N.eqb c LF then Some rest
    else if N.eqb c CR then
      match rest with
      | c' :: rest' => if N.eqb c' LF then Some rest' else None
      | [] => None
      end
    else None
  | [] => None
  end.

(** [\r?\n---\r?\n] at the head of [s]: what follows it. *)
Definition closing_fence (s : jsstring) : option jsstring :=
  match eat_newline s with
  | Some rest =>
    if startsWith (str "---") rest then eat_newline (skipn 3 rest) else None
  | None => None
  end.

(** [([\s\S]*?)\r?\n---\r?\n] at the head of [s]: the shortest body after
    which the closing fence matches, and what follows the fence. *)
Fixpoint lazy_body (s : jsstring) : option (jsstring * jsstring) :=
  match closing_fence s with
  | Some rest => Some ([], rest)
  | None =>
    match s with
    | [] => None
    | c :: s' =>
      match lazy_body s' with
      | Some (body, rest) => Some (c :: body, rest)
      | None => None
      end
    end
  end.

(** [markdown.match(/^---\r?\n([\s\S]*?)\r?\n---\r?\n/)]: the group
    [match[1]] and [markdown.slice(match[0].length)]. *)
Definition frontmatter_match (markdown : jsstring) : option (jsstring * jsstring) :=
  if startsWith (str "---") markdown then
    match eat_newline (skipn 3 markdown) with
    | Some rest => lazy_body rest
    | None => None
    end
  else None.

(** The state of the line loop of [parseFrontmatter].  [fm_config] holds
    the properties of [config] itself, in the order of their creation, and
    under the key [pdf_options] those of [config.pdf_options] itself.
    Both objects are created by [{}], and the loop can replace the
    prototype of both through the key [__proto__]: [config_proto] is
    [None] while the prototype of [config] is [Object.prototype], and
    [Some items] once it is an array, with these items; [pdf_proto] is
    [None] while the prototype of [config.pdf_options] is
    [Object.prototype], and [Some text] once it is the value of
    [JSON.parse(text)]. *)
Record Frontmatter : Type := {
  fm_config : Obj.t;
  currentKey : jsstring;
  isArray : bool;
  inPdfOptions : bool;
  config_proto : option (list jsstring);
  pdf_proto : option jsstring
}.

(** How the line loop goes on: with a state, or with a [TypeError] (an
    assignment into a [pdf_options] that is no object). *)
Inductive parsing (A : Type) : Type :=
  | Parsed (a : A)
  | Raises.

Arguments Parsed {A} a.
Arguments Raises {A}.

Section ParseFrontmatter.

(** [isNaN(Number(text))]; [JSON.parse(text)] returns; the value it
    returns has a property of its own named [__proto__]. *)
Variable Number_isNaN : jsstring -> bool.
Variable JSON_valid : jsstring -> bool.
Variable JSON_own_proto : jsstring -> bool.

(** The value stored for the text [value]: [true], [false], a number
    when the text is not empty and converts to one, else the text. *)
Definition scalar (value : jsstring) : jsvalue :=
  if JS.eqb value (str "true") then VBool true
  else if JS.eqb value (str "false") then VBool false
  else if negb (Number_isNaN value) && truthy value then VNum value
  else VStr value.

(** The value stored for a sub-key of [pdf_options]: inline JSON when the
    text starts with a brace or a bracket and parses, the text itself when
    it does not parse, a [scalar] otherwise. *)
Definition pdf_value (value : jsstring) : jsvalue :=
  if startsWith (str "{") value || startsWith (str "[") value then
    if JSON_valid value then VJson value else VStr value
  else scalar value.

(** [config.pdf_options[subKey] = v], on the properties [fields] of
    [config.pdf_options] and its prototype [proto].  For the key
    [__proto__] the assignment writes a property of the object when the
    object has one of that name or inherits one from a prototype that is a
    JSON value; otherwise it reaches the accessor of [Object.prototype],
    whose setter makes a parsed JSON value the new prototype and does
    nothing for a value that is no object. *)
Definition assign_pdf (fields : Obj.t) (proto : option jsstring)
  (subKey : jsstring) (v : jsvalue) : Obj.t * option jsstring :=
  if negb (JS.eqb subKey (str "__proto__")) then (Obj.set fields subKey v, proto)
  else if Obj.has fields subKey
          || match proto with
             | Some text => JSON_own_proto text
             | None => false
             end
  then (Obj.set fields subKey v, proto)
  else match v with
       | VJson text => (fields, Some text)
       | _ => (fields, proto)
       end.

(** One line of the frontmatter.  The keys are read from the text.
    At the top level the values assigned are booleans, numbers and
    strings, and the prototype of [config] is [Object.prototype] or an
    array of strings, neither of which has a data property [__proto__]:
    the assignments are [Obj.assign].  In the array branch a [currentKey]
    equal to [__proto__] reads and writes the prototype of [config]: when
    the prototype is no array, the assignment of [[]] makes a new array
    the prototype, and the item is pushed onto the array that is the
    prototype; [config] itself keeps the properties it has.  For every
    other key the array is a property of [config] itself: what
    [config[currentKey]] inherits is never an array, so [Array.isArray]
    is decided by the property of [config] itself, and the assignment of
    [[]] defines that property. *)
Definition frontmatter_line (st : Frontmatter) (line : jsstring) : parsing Frontmatter :=
  let c := fm_config st in
  let trimmed := trim line in
  if negb (truthy trimmed) || startsWith (str "#") trimmed then Parsed st
  else if startsWith (str "- ") trimmed then
    (* Check for array item *)
    if truthy (currentKey st) && isArray st then
      let value := trim (slice trimmed 2 (List.length trimmed)) in
      if JS.eqb (currentKey st) (str "__proto__") then
        let items := match config_proto st with
                     | Some items => items
                     | None => []
                     end in
        Parsed (Build_Frontmatter c (currentKey st) (isArray st) (inPdfOptions st)
                  (Some (items ++ [value])) (pdf_proto st))
      else
        let c1 := if JSLib.isArray (Obj.get c (currentKey st)) then c
                  else Obj.set c (currentKey st) (VArr []) in
        match Obj.get c1 (currentKey st) with
        | VArr items =>
          Parsed (Build_Frontmatter
                    (Obj.set c1 (currentKey st) (VArr (items ++ [VStr value])))
                    (currentKey st) (isArray st) (inPdfOptions st)
                    (config_proto st) (pdf_proto st))
        | _ => Parsed st
        end
    else Parsed st
  else
    (* Key-value pair *)
    match indexOf trimmed (str ":") 0 with
    | Some colonIndex =>
      if 0 <? colonIndex then
        let key := trim (slice trimmed 0 colonIndex) in
        let value := trim (slice trimmed (colonIndex + 1) (List.length trimmed)) in
        if JS.eqb key (str "pdf_options") then
          (* Handle top-level pdf_options *)
          Parsed (Build_Frontmatter
                    (if truthy_value (Obj.get c (str "pdf_options")) then c
                     else Obj.set c (str "pdf_options") (VObj []))
                    key false true (config_proto st) (pdf_proto st))
        else if startsWith (str "  ") line && inPdfOptions st then
          (* Handle pdf_options sub-keys (indented lines) *)
          if negb (truthy value) then
            Parsed (Build_Frontmatter c (currentKey st) false (inPdfOptions st)
                      (config_proto st) (pdf_proto st))
          else
            match Obj.get c (str "pdf_options") with
            | VObj fields =>
              let '(fields', proto') :=
                assign_pdf fields (pdf_proto st) key (pdf_value value) in
              Parsed (Build_Frontmatter
                        (Obj.set c (str "pdf_options") (VObj fields'))
                        (currentKey st) false (inPdfOptions st)
                        (config_proto st) proto')
            | _ => Raises
            end
        else if startsWith (str "    ") line && inPdfOptions st then
          (* Handle margin sub-keys (more deeply indented) *)
          match Obj.get c (str "pdf_options") with
          | VObj fields =>
            let margin := match Obj.get fields (str "margin") with
                          | VObj m => m
                          | _ => []            (* a falsy margin becomes {} *)
                          end in
            Parsed (Build_Frontmatter
                      (Obj.set c (str "pdf_options")
                         (VObj (Obj.set fields (str "margin")
                                  (VObj (Obj.assign margin key (VStr value))))))
                      (currentKey st) false (inPdfOptions st)
                      (config_proto st) (pdf_proto st))
          | _ => Raises
          end
        else if negb (truthy value) then
          (* Check if next line starts an array *)
          Parsed (Build_Frontmatter c key true false (config_proto st) (pdf_proto st))
        else
          Parsed (Build_Frontmatter (Obj.assign c key (scalar value)) key false false
                    (config_proto st) (pdf_proto st))
      else Parsed st
    | None => Parsed st
    end.

(** [for (const line of lines)] *)
Fixpoint frontmatter_lines (st : Frontmatter) (lines : list jsstring)
  : parsing Frontmatter :=
  match lines with
  | [] => Parsed st
  | line :: rest =>
    match frontmatter_line st line with
    | Parsed st' => frontmatter_lines st' rest
    | Raises => Raises
    end
  end.

(** [parseFrontmatter(markdown)]: the content and the properties of the
    configuration object. *)
Definition parseFrontmatter (markdown : jsstring) : parsing (jsstring * Obj.t) :=
  match frontmatter_match markdown with
  | None => Parsed (markdown, [])
  | Some (yamlContent, content) =>
    match frontmatter_lines (Build_Frontmatter [] [] false false None None)
            (split_on LF yamlContent) with
    | Parsed st => Parsed (content, fm_config st)
    | Raises => Raises
    end
  end.

End ParseFrontmatter.

(** The values the line loop stores at the top level of the
    configuration: booleans, numbers, strings, arrays of strings. *)
Definition flat_value (v : jsvalue) : Prop :=
  match v with
  | VUndefined | VBool _ | VNum _ | VStr _ => True
  | VArr items => Forall (fun i => exists s, i = VStr s) items
  | VJson _ | VObj _ => False
  end.

(** The values the line loop stores under [pdf_options]: booleans,
    numbers, strings and inline JSON. *)
Definition pdf_field_value (v : jsvalue) : Prop :=
  match v with
  | VUndefined | VBool _ | VNum _ | VStr _ | VJson _ => True
  | VArr _ | VObj _ => False
  end.

(** A line break of the frontmatter fences: LF or CR LF. *)
Definition newline (nl : jsstring) : Prop := nl = [LF] \/ nl = [CR; LF].

(** What holds of the state of the line loop between two lines: the
    top-level values are flat, [pdf_options] is absent or an object of
    plain fields, it is an object while its sub-keys are read, array
    items are never collected for it, and the configuration has no
    property named [__proto__]. *)
Definition frontmatter_inv (st : Frontmatter) : Prop :=
  (forall k, k <> str "pdf_options" -> flat_value (Obj.get (fm_config st) k))
  /\ match Obj.get (fm_config st) (str "pdf_options") with
     | VUndefined => inPdfOptions st = false
     | VObj fields => forall k, pdf_field_value (Obj.get fields k)
     | _ => False
     end
  /\ (isArray st = true -> currentKey st <> str "pdf_options")
  /\ Obj.has (fm_config st) (str "__proto__") = false.

(** Case analysis along the chain of tests of [parseArgs_step]. *)
Ltac step_cases :=
  unfold parseArgs_step;
  repeat match goal with
         | |- context [if ?c then _ else _] => destruct c eqn:?
         | |- context [match ?n with Some _ => _ | None => _ end] => destruct n eqn:?
         end.

(** Membership in a list written out. *)
Ltac known := simpl; tauto.

(** A code unit [escapeHtml] leaves as it is. *)
Definition plain_unit (c : code_unit) : Prop :=
  c <> AMP /\ c <> LT /\ c <> GT /\ c <> QUOT.

(* ================================================================== *)
(** ** Input files and the destination *)

(** [s.includes(c)] for a one-character [c]. *)
Definition includes (s : jsstring) (c : code_unit) : bool := existsb (N.eqb c) s.

(** The pattern has a [*], a [?] or a bracket. *)
Definition is_glob (pattern : jsstring) : bool :=
  includes pattern 42%N || includes pattern 63%N || includes pattern 91%N.

(** [Array.from(new Set(l))]: the first occurrence of every element, in
    order; [seen] holds the elements already in the set. *)
Fixpoint dedupe_into (seen l : list jsstring) : list jsstring :=
  match l with
  | [] => []
  | x :: rest =>
    if existsb (JS.eqb x) seen then dedupe_into seen rest
    else x :: dedupe_into (x :: seen) rest
  end.

Definition dedupe (l : list jsstring) : list jsstring := dedupe_into [] l.

(** The order of the default [sort]: strings compared code unit by code
    unit, a proper prefix first. *)
Fixpoint lex_ltb (a b : jsstring) : bool :=
  match a, b with
  | _, [] => false
  | [], _ :: _ => true
  | x :: a', y :: b' =>
    if N.ltb x y then true else if N.ltb y x then false else lex_ltb a' b'
  end.

Fixpoint sort_insert (x : jsstring) (l : list jsstring) : list jsstring :=
  match l with
  | [] => [x]
  | y :: rest => if lex_ltb y x then y :: sort_insert x rest else x :: y :: rest
  end.

(** [l.sort()] *)
Definition sort (l : list jsstring) : list jsstring := fold_right sort_insert [] l.

Section ExpandGlobs.

(** [glob(pattern, { nodir: true })], the files a pattern matches. *)
Variable glob : jsstring -> list jsstring.

(** The loop of [expandGlobs]: the matches of a glob pattern that end in
    [.md], any other pattern as it is. *)
Definition allFiles (patterns : list jsstring) : list jsstring :=
  flat_map (fun pattern =>
              if is_glob pattern
              then filter (fun f => endsWith f (str ".md")) (glob pattern)
              else [pattern])
           patterns.

(** [expandGlobs(patterns)]: deduplicate and sort. *)
Definition expandGlobs (patterns : list jsstring) : list jsstring :=
  sort (dedupe (allFiles patterns)).

End ExpandGlobs.

(** [convertFile]: [{ ...config, dest: outputPath }]. *)
Definition finalConfig (config : Obj.t) (outputPath : jsstring) : Obj.t :=
  Obj.set (Obj.spread [] config) (str "dest") (VStr outputPath).

(** [mdToPdf]: [{ ...config, ...frontmatterConfig, pdf_options:
    { ...config.pdf_options, ...frontmatterConfig.pdf_options } }]. *)
Definition mergedConfig (config frontmatterConfig : Obj.t) : Obj.t :=
  Obj.set (Obj.spread (Obj.spread [] config) frontmatterConfig) (str "pdf_options")
    (VObj (Obj.spread (Obj.spread [] (Obj.entries (Obj.get config (str "pdf_options"))))
             (Obj.entries (Obj.get frontmatterConfig (str "pdf_options"))))).

(* ================================================================== *)
(** ** The forms of block math in the statements *)

(** The single-line and the multi-line block form of a math source [m]:
    [$$m$$] on one line, and [m] on a line of its own between two lines
    that read [$$]. *)
Definition single_line_form (m : jsstring) : jsstring :=
  str "$$" ++ m ++ str "$$".

Definition multi_line_form (m : jsstring) : jsstring :=
  str "$$" ++ nl ++ m ++ nl ++ str "$$".

(** The text [m], followed by a closing [$$], has no [$$] that starts
    inside [m]: [m] has no two dollar signs in a row and does not end with
    a dollar sign. *)
Definition closes_at_end (m : jsstring) : Prop :=
  forall k, k < List.length m -> slice (m ++ str "$$") k (k + 2) <> str "$$".

(** Line [ln] opens multi-line block math: its text starts with [$$] and
    has no second [$$] before the end of the line. *)
Definition opening_line (state : StateBlock.t) (ln : nat) : Prop :=
  let src := StateBlock.src state in
  let startPos := nth ln (StateBlock.bMarks state) 0
                  + nth ln (StateBlock.tShift state) 0 in
  let maxPos := nth ln (StateBlock.eMarks state) 0 in
  startPos + 2 <= maxPos
  /\ slice src startPos (startPos + 2) = str "$$"
  /\ forall p, startPos + 2 <= p < maxPos -> slice src p (p + 2) <> str "$$".


(** A text of white space only (the empty text included). *)
Definition blank (s : jsstring) : Prop := Forall (fun c => is_white c = true) s.

(* ================================================================== *)
(** ** Facts about JavaScript strings *)

Lemma eqb_eq (a b : jsstring) : JS.eqb a b = true <-> a = b.
Proof.
  revert b; induction a as [|x a IH]; intros [|y b]; simpl; split;
    try congruence; try reflexivity.
  - intros H. apply andb_true_iff in H as [Hx Hab].
    apply N.eqb_eq in Hx. apply IH in Hab. congruence.
  - intros H. injection H as -> ->. rewrite N.eqb_refl. simpl. now apply IH.
Qed.

Lemma eqb_neq (a b : jsstring) : JS.eqb a b = false <-> a <> b.
Proof.
  split.
  - intros H E. apply eqb_eq in E. congruence.
  - intros H. destruct (JS.eqb a b) eqn:E; [|reflexivity].
    apply eqb_eq in E. contradiction.
Qed.

Lemma code_is_true (o : option code_unit) (c : code_unit) :
  code_is o c = true <-> o = Some c.
Proof.
  destruct o as [x|]; simpl.
  - rewrite N.eqb_eq. split; congruence.
  - split; discriminate.
Qed.

(** ** [escapeHtml], one code unit at a time *)

Lemma replace_all_app (c : code_unit) (r a b : jsstring) :
  replace_all c r (a ++ b) = replace_all c r a ++ replace_all c r b.
Proof. unfold replace_all. apply flat_map_app. Qed.

Lemma escapeHtml_cons (c : code_unit) (s : jsstring) :
  escapeHtml (c :: s) = escape_unit c ++ escapeHtml s.
Proof.
  unfold escapeHtml, escape_unit.
  change (replace_all AMP (str "&amp;") (c :: s))
    with ((if N.eqb c AMP then str "&amp;" else [c]) ++ replace_all AMP (str "&amp;") s).
  rewrite !replace_all_app.
  f_equal.
  destruct (N.eqb_spec c AMP) as [->|Hamp]; [reflexivity|].
  destruct (N.eqb_spec c LT) as [->|Hlt]; [reflexivity|].
  destruct (N.eqb_spec c GT) as [->|Hgt]; [reflexivity|].
  destruct (N.eqb_spec c QUOT) as [->|Hq]; [reflexivity|].
  cbn [replace_all flat_map app].
  apply N.eqb_neq in Hlt, Hgt, Hq.
  rewrite Hlt. cbn [app flat_map]. rewrite Hgt. cbn [app flat_map]. rewrite Hq.
  reflexivity.
Qed.

Lemma escapeHtml_flat_map (s : jsstring) : escapeHtml s = flat_map escape_unit s.
Proof.
  induction s as [|c s IH]; [reflexivity|].
  rewrite escapeHtml_cons, IH. reflexivity.
Qed.

Lemma escapeHtml_app (a b : jsstring) : escapeHtml (a ++ b) = escapeHtml a ++ escapeHtml b.
Proof. rewrite !escapeHtml_flat_map. apply flat_map_app. Qed.

(** The escaped text has no markup character left in it. *)
Lemma escapeHtml_no_markup (s : jsstring) (c : code_unit) :
  In c (escapeHtml s) -> c <> LT /\ c <> GT /\ c <> QUOT.
Proof.
  rewrite escapeHtml_flat_map, in_flat_map.
  intros (x & _ & Hc). unfold escape_unit in Hc.
  destruct (N.eqb_spec x AMP); [|destruct (N.eqb_spec x LT);
    [|destruct (N.eqb_spec x GT); [|destruct (N.eqb_spec x QUOT)]]];
    simpl in Hc;
    repeat (destruct Hc as [<-|Hc]; [repeat split; (discriminate || congruence)|]);
    try contradiction.
Qed.

Lemma unescape_escape_fuel (s : jsstring) :
  forall n, List.length (escapeHtml s) <= n -> unescapeHtml_fuel n (escapeHtml s) = s.
Proof.
  induction s as [|c s IH]; intros n Hn.
  - destruct n; reflexivity.
  - rewrite escapeHtml_cons in *. rewrite length_app in Hn.
    unfold escape_unit in *.
    destruct (N.eqb_spec c AMP) as [->|Hamp].
    { destruct n as [|n]; [simpl in Hn; lia|].
      simpl in Hn. simpl. f_equal. apply IH. lia. }
    destruct (N.eqb_spec c LT) as [->|Hlt].
    { destruct n as [|n]; [simpl in Hn; lia|].
      simpl in Hn. simpl. f_equal. apply IH. lia. }
    destruct (N.eqb_spec c GT) as [->|Hgt].
    { destruct n as [|n]; [simpl in Hn; lia|].
      simpl in Hn. simpl. f_equal. apply IH. lia. }
    destruct (N.eqb_spec c QUOT) as [->|Hq].
    { destruct n as [|n]; [simpl in Hn; lia|].
      simpl in Hn. simpl. f_equal. apply IH. lia. }
    destruct n as [|n]; [simpl in Hn; lia|].
    simpl in Hn. cbn [app unescapeHtml_fuel].
    apply N.eqb_neq in Hamp. rewrite Hamp. cbn [negb].
    f_equal. apply IH. lia.
Qed.

Lemma unescape_escape (s : jsstring) : unescapeHtml (escapeHtml s) = s.
Proof. unfold unescapeHtml. apply unescape_escape_fuel. lia. Qed.

(* ================================================================== *)
(** ** The inline rule: closing delimiter and frame *)

Lemma scan_closing_range (src : jsstring) (n e0 : nat) :
  e0 <= scan_closing src e0 n <= e0 + n.
Proof.
  revert e0; induction n as [|n IH]; intros e0; simpl; [lia|].
  destruct (closes src e0); [lia|]. specialize (IH (S e0)). lia.
Qed.

Lemma scan_closing_stops (src : jsstring) (n e0 : nat) :
  scan_closing src e0 n < e0 + n -> closes src (scan_closing src e0 n) = true.
Proof.
  revert e0; induction n as [|n IH]; intros e0; simpl; [lia|].
  destruct (closes src e0) eqn:E; [intros _; exact E|].
  intros H. apply IH. lia.
Qed.


(** A declining inline rule leaves the state as it found it. *)
Lemma inlineMathRule_decline (state : StateInline.t) (silent : bool) :
  fst (inlineMathRule state silent) = false ->
  inlineMathRule state silent = (false, state).
Proof.
  unfold inlineMathRule.
  repeat match goal with
         | |- context [if ?c then _ else _] => destruct c
         end; simpl; congruence.
Qed.

(** What a match of the inline rule amounts to. *)
Lemma inlineMathRule_match (state st' : StateInline.t) (silent : bool) :
  inlineMathRule state silent = (true, st') ->
  let src := StateInline.src state in
  let start := StateInline.pos state in
  let max := StateInline.posMax state in
  let e := scan_closing src (start + 1) (max - (start + 1)) in
  charCodeAt src start = Some DOLLAR
  /\ start < e < max
  /\ closes src e = true
  /\ trim (slice src (start + 1) e) <> []
  /\ st' = StateInline.set_pos (e + 1)
             (if silent then state
              else StateInline.push state "math_inline" "span"
                     (Token.set_content (slice src (start + 1) e))).
Proof.
  unfold inlineMathRule. cbv zeta.
  set (src := StateInline.src state).
  set (start := StateInline.pos state).
  set (max := StateInline.posMax state).
  set (e := scan_closing src (start + 1) (max - (start + 1))).
  destruct (code_is (charCodeAt src start) DOLLAR) eqn:Hd; simpl; [|discriminate].
  destruct ((start + 1 <? max) && _); [discriminate|].
  destruct ((0 <? start) && _); [discriminate|].
  destruct (max <=? e) eqn:Hmax; [discriminate|].
  destruct (truthy (trim (slice src (start + 1) e))) eqn:Ht; simpl; [|discriminate].
  intros H. injection H as <-.
  apply Nat.leb_gt in Hmax.
  pose proof (scan_closing_range src (max - (start + 1)) (start + 1)) as Hr.
  fold e in Hr.
  repeat split.
  - now apply code_is_true.
  - lia.
  - exact Hmax.
  - apply scan_closing_stops. fold e. lia.
  - intros E. rewrite E in Ht. discriminate.
Qed.

(** ** Searching and trimming *)

Lemma startsWith_slice (pat s : jsstring) (k : nat) :
  startsWith pat (skipn k s) = true <-> slice s k (k + List.length pat) = pat /\ True.
Proof.
  unfold slice. replace (k + List.length pat - k) with (List.length pat) by lia.
  generalize (skipn k s) as t. clear s k.
  induction pat as [|p pat IH]; intros t; simpl.
  - tauto.
  - destruct t as [|c t]; simpl.
    + split; [discriminate|intros [H _]; discriminate].
    + rewrite andb_true_iff, N.eqb_eq, IH. split.
      * intros [-> [-> _]]. tauto.
      * intros [H _]. injection H as -> ->. tauto.
Qed.

Lemma indexOf_aux_sound (pat : jsstring) (s : jsstring) :
  forall k e, indexOf_aux pat s k = Some e ->
  k <= e /\ startsWith pat (skipn (e - k) s) = true.
Proof.
  induction s as [|c s IH]; intros k e; simpl.
  - destruct (startsWith pat []) eqn:E; [|discriminate].
    intros H. injection H as <-. rewrite Nat.sub_diag. simpl. auto.
  - destruct (startsWith pat (c :: s)) eqn:E.
    + intros H. injection H as <-. rewrite Nat.sub_diag. simpl. auto.
    + intros H. apply IH in H as [Hle Hs]. split; [lia|].
      replace (e - k) with (S (e - S k)) by lia. exact Hs.
Qed.

(** [indexOf] returns an occurrence at or after [from]. *)
Lemma indexOf_sound (s pat : jsstring) (from e : nat) :
  indexOf s pat from = Some e ->
  Nat.min from (List.length s) <= e /\ slice s e (e + List.length pat) = pat.
Proof.
  unfold indexOf. intros H. apply indexOf_aux_sound in H as [Hle Hs].
  split; [exact Hle|].
  rewrite skipn_skipn in Hs.
  replace (e - Nat.min from (List.length s) + Nat.min from (List.length s)) with e in Hs by lia.
  now apply startsWith_slice in Hs.
Qed.



Lemma slice_Forall (P : code_unit -> Prop) (s : jsstring) (a b : nat) :
  (forall k, a <= k < b -> forall c, charCodeAt s k = Some c -> P c) ->
  Forall P (slice s a b).
Proof.
  intros H. apply Forall_forall. intros c Hin.
  apply In_nth_error in Hin as [i Hi].
  unfold slice in Hi.
  assert (Hlt : i < b - a).
  { assert (i < List.length (firstn (b - a) (skipn a s))).
    { apply nth_error_Some. congruence. }
    rewrite length_firstn in H0. lia. }
  rewrite nth_error_firstn in Hi.
  destruct (Nat.ltb_spec i (b - a)); [|lia].
  rewrite nth_error_skipn in Hi.
  apply (H (a + i)); [lia|exact Hi].
Qed.

(* ================================================================== *)
(** ** The block rule: frame, silent mode and the emitted token *)

Lemma find_closing_line_none (state : StateBlock.t) (n first : nat) :
  (forall ln, first <= ln < first + n -> trim (line_text state ln) <> str "$$") ->
  find_closing_line state first n = None.
Proof.
  revert first; induction n as [|n IH]; intros first H; simpl; [reflexivity|].
  destruct (JS.eqb _ _) eqn:E.
  - apply eqb_eq in E. exfalso. apply (H first); [lia|exact E].
  - apply IH. intros ln Hln. apply H. lia.
Qed.

Lemma find_closing_line_some (state : StateBlock.t) (n first ln : nat) :
  find_closing_line state first n = Some ln ->
  first <= ln < first + n /\ trim (line_text state ln) = str "$$".
Proof.
  revert first; induction n as [|n IH]; intros first; simpl; [discriminate|].
  destruct (JS.eqb _ _) eqn:E.
  - intros H. injection H as <-. apply eqb_eq in E. split; [lia|exact E].
  - intros H. apply IH in H. split; [lia|tauto].
Qed.

(** A declining block rule leaves the state as it found it. *)
Lemma blockMathRule_decline (state : StateBlock.t) (startLine endLine : nat) (silent : bool) :
  fst (blockMathRule state startLine endLine silent) = false ->
  blockMathRule state startLine endLine silent = (false, state).
Proof. block_cases; simpl; congruence. Qed.

(** In silent mode the block rule returns before it touches the state. *)
Lemma blockMathRule_silent (state : StateBlock.t) (startLine endLine : nat) :
  snd (blockMathRule state startLine endLine true) = state.
Proof. block_cases; reflexivity. Qed.

(** Both modes detect the same blocks. *)
Lemma blockMathRule_detect (state : StateBlock.t) (startLine endLine : nat) (silent : bool) :
  fst (blockMathRule state startLine endLine silent)
  = fst (blockMathRule state startLine endLine true).
Proof. destruct silent; [reflexivity|]. block_cases; reflexivity. Qed.

(** A match outside silent mode appends exactly one [math_block] token and
    moves the line cursor past the start line; there is no test on the
    content. *)
Lemma blockMathRule_match (state st' : StateBlock.t) (startLine endLine : nat) :
  blockMathRule state startLine endLine false = (true, st') ->
  exists token,
    StateBlock.tokens st' = StateBlock.tokens state ++ [token]
    /\ Token.type token = "math_block"%string
    /\ (exists inner, Token.content token = trim inner)
    /\ startLine < StateBlock.line st'.
Proof.
  block_cases; intros H; try discriminate; injection H as <-;
    eexists; simpl; (split; [reflexivity|]); (split; [reflexivity|]);
    (split; [eexists; reflexivity|]); try lia.
  all: match goal with
       | H : find_closing_line _ _ _ = Some _ |- _ =>
         apply find_closing_line_some in H; lia
       end.
Qed.

Lemma closes_spec (src : jsstring) (k : nat) :
  closes src k = true <->
  charCodeAt src k = Some DOLLAR /\ charCodeAt src (k - 1) <> Some BACKSLASH.
Proof.
  unfold closes. rewrite andb_true_iff, negb_true_iff, code_is_true.
  split; intros [H1 H2]; split; try exact H1.
  - intros E. apply code_is_true in E. congruence.
  - destruct (code_is _ BACKSLASH) eqn:E; [|reflexivity].
    apply code_is_true in E. contradiction.
Qed.

Lemma try_block_rules_skip (rule : BlockRule) (rest : list BlockRule)
  (state : StateBlock.t) (line endLine : nat) :
  rule state line endLine false = (false, state) ->
  try_block_rules (rule :: rest) state line endLine
  = try_block_rules rest state line endLine.
Proof. intros H. simpl. now rewrite H. Qed.

Lemma try_inline_rules_skip (rule : InlineRule) (rest : list InlineRule)
  (state : StateInline.t) :
  rule state false = (false, state) ->
  try_inline_rules (rule :: rest) state = try_inline_rules rest state.
Proof. intros H. simpl. now rewrite H. Qed.

(* ================================================================== *)
(** ** The sanitizing gate *)

(** Unless [sanitize] is explicitly [false], what [renderMarkdownSafe]
    returns is what the sanitizer returns for the rendered HTML. *)
Lemma renderMarkdownSafe_sanitizes (MarkdownIt : Type)
  (new_MarkdownIt : bool * bool * bool * bool -> MarkdownIt)
  (md_render : MarkdownIt -> jsstring -> jsstring)
  (purify : jsstring -> jsstring) (mdInstance : option MarkdownIt)
  (content : jsstring) (options : RenderOptions) :
  sanitize options <> Some false ->
  fst (renderMarkdownSafe new_MarkdownIt md_render purify mdInstance content options)
  = purify (fst (renderMarkdownWithOptions new_MarkdownIt md_render mdInstance content
                   (markdownOptions options))).
Proof.
  intros H. unfold renderMarkdownSafe.
  destruct (renderMarkdownWithOptions _ _ _ _ _) as [html i].
  destruct (sanitize options) as [[|]|]; cbn; congruence.
Qed.

(** With [sanitize: false] the rendered HTML is returned as it is. *)
Lemma renderMarkdownSafe_bypass (MarkdownIt : Type)
  (new_MarkdownIt : bool * bool * bool * bool -> MarkdownIt)
  (md_render : MarkdownIt -> jsstring -> jsstring)
  (purify : jsstring -> jsstring) (mdInstance : option MarkdownIt)
  (content : jsstring) (options : RenderOptions) :
  sanitize options = Some false ->
  renderMarkdownSafe new_MarkdownIt md_render purify mdInstance content options
  = renderMarkdownWithOptions new_MarkdownIt md_render mdInstance content
      (markdownOptions options).
Proof.
  intros H. unfold renderMarkdownSafe.
  destruct (renderMarkdownWithOptions _ _ _ _ _) as [html i]. now rewrite H.
Qed.

(** The default instance is built at most once: a call never replaces an
    instance that [mdInstance] already holds, and a call with options of its
    own leaves [mdInstance] as it was. *)
Lemma mdInstance_kept (MarkdownIt : Type)
  (new_MarkdownIt : bool * bool * bool * bool -> MarkdownIt)
  (md_render : MarkdownIt -> jsstring -> jsstring)
  (purify : jsstring -> jsstring) (md : MarkdownIt)
  (content : jsstring) (options : RenderOptions) :
  snd (renderMarkdownSafe new_MarkdownIt md_render purify (Some md) content options)
  = Some md.
Proof.
  unfold renderMarkdownSafe, renderMarkdownWithOptions, renderMarkdown,
    getMarkdownRenderer.
  destruct (markdownOptions options) as [o|]; [destruct (has_keys o)|];
    destruct (sanitize options) as [[|]|]; reflexivity.
Qed.

(* ================================================================== *)
(** ** Unterminated block math *)

(** C3.  A line that begins with [$$], has no second [$$] later on the
    same line, and is followed by no line (up to the end of the input the
    rule is given) whose trimmed text is exactly [$$]: the block-math rule
    declines in either mode, leaving the state, hence the line cursor and
    the token stream, untouched, and the host's chain goes on with the
    rules registered after it exactly as if the math rule were not
    there. *)
Theorem unterminated_block_math_declines
  (state : StateBlock.t) (startLine endLine : nat) (silent : bool)
  (rest : list BlockRule) :
  let src := StateBlock.src state in
  let startPos := nth startLine (StateBlock.bMarks state) 0
                  + nth startLine (StateBlock.tShift state) 0 in
  let maxPos := nth startLine (StateBlock.eMarks state) 0 in
  slice src startPos (startPos + 2) = str "$$" ->
  (forall p, startPos + 2 <= p < maxPos -> slice src p (p + 2) <> str "$$") ->
  (forall ln, startLine < ln < endLine -> trim (line_text state ln) <> str "$$") ->
  blockMathRule state startLine endLine silent = (false, state)
  /\ math_tokens (StateBlock.tokens (snd (blockMathRule state startLine endLine silent)))
     = math_tokens (StateBlock.tokens state)
  /\ try_block_rules (blockMathRule :: rest) state startLine endLine
     = try_block_rules rest state startLine endLine.
Proof.
  intros src startPos maxPos _ Hline Hlater.
  assert (Hmulti : forall m, blockMath_multi_line state startLine endLine m = (false, state)).
  { intros m. unfold blockMath_multi_line.
    rewrite find_closing_line_none; [reflexivity|].
    intros ln Hln. apply Hlater. lia. }
  assert (Hdecl : forall m, blockMathRule state startLine endLine m = (false, state)).
  { intros m. unfold blockMathRule. fold src startPos maxPos.
    destruct (maxPos <? startPos + 2); [reflexivity|].
    destruct (negb _); [reflexivity|].
    destruct (indexOf src (str "$$") (startPos + 2)) as [e|] eqn:Hidx; [|apply Hmulti].
    destruct (Nat.ltb_spec e maxPos) as [Hlt|_]; [|apply Hmulti].
    exfalso. apply indexOf_sound in Hidx as [Hmin Hocc].
    change (List.length (str "$$")) with 2 in Hocc.
    apply (Hline e); [|exact Hocc].
    split; [|exact Hlt].
    destruct (Nat.le_gt_cases (startPos + 2) e) as [Hle|Hgt]; [exact Hle|].
    assert (Hlen : List.length src <= e) by lia.
    unfold slice in Hocc. rewrite skipn_all2 in Hocc by exact Hlen.
    rewrite firstn_nil in Hocc. discriminate. }
  split; [apply Hdecl|]. split.
  - now rewrite Hdecl.
  - apply try_block_rules_skip, Hdecl.
Qed.

Lemma unterminated_block_math_declines_witness :
  blockMathRule unterminated_doc 0 (StateBlock.lineMax unterminated_doc) false
  = (false, unterminated_doc)
  /\ StateBlock.tokens
       (snd (blockMathRule unterminated_doc 0 (StateBlock.lineMax unterminated_doc) false))
     = [].
Proof.
  destruct (@unterminated_block_math_declines unterminated_doc 0
              (StateBlock.lineMax unterminated_doc) false []) as (H & _ & _).
  - reflexivity.
  - intros p Hp. simpl in Hp.
    assert (Hc : p = 2 \/ p = 3) by lia.
    destruct Hc as [-> | ->]; discriminate.
  - intros ln Hln. simpl in Hln.
    assert (Hc : ln = 1) by lia.
    subst ln. discriminate.
  - split; [exact H|]. rewrite H. reflexivity.
Defined.

(* ================================================================== *)
(** ** Silent mode *)

(** C10.  In silent mode the inline-math rule pushes no token (the token
    stream and the pending text are those of the state it was given), yet
    every match moves [state.pos] to the index after the closing [$],
    the same position as outside silent mode; the block-math rule in
    silent mode returns the state it was given, line cursor and token
    stream included, whether or not it matches. *)
Theorem silent_mode_effects :
  (forall (state st' : StateInline.t),
      inlineMathRule state true = (true, st') ->
      StateInline.tokens st' = StateInline.tokens state
      /\ StateInline.pending st' = StateInline.pending state
      /\ (exists e,
             StateInline.pos state < e < StateInline.posMax state
             /\ charCodeAt (StateInline.src state) e = Some DOLLAR
             /\ StateInline.pos st' = e + 1
             /\ st' = StateInline.set_pos (e + 1) state)
      /\ StateInline.pos state < StateInline.pos st'
      /\ StateInline.pos (snd (inlineMathRule state false)) = StateInline.pos st')
  /\ (forall (state : StateBlock.t) (startLine endLine : nat),
         snd (blockMathRule state startLine endLine true) = state
         /\ StateBlock.line (snd (blockMathRule state startLine endLine true))
            = StateBlock.line state
         /\ StateBlock.tokens (snd (blockMathRule state startLine endLine true))
            = StateBlock.tokens state).
Proof.
  split.
  - intros state st' H.
    pose proof (inlineMathRule_match _ _ H) as (Hd & Hr & Hc & Ht & ->).
    apply closes_spec in Hc as [Hc _].
    split; [reflexivity|]. split; [reflexivity|]. split.
    { eexists. split; [exact Hr|]. split; [exact Hc|]. split; reflexivity. }
    split; [simpl; lia|].
    destruct (inlineMathRule state false) as [ok st2] eqn:H2.
    assert (Hok : ok = true).
    { revert H H2. unfold inlineMathRule.
      repeat match goal with
             | |- context [if ?c then _ else _] => destruct c
             end; simpl; congruence. }
    subst ok. pose proof (inlineMathRule_match _ _ H2) as (_ & _ & _ & _ & ->).
    reflexivity.
  - intros state startLine endLine.
    rewrite blockMathRule_silent. repeat split.
Qed.

Lemma silent_mode_effects_witness :
  let state := StateInline.new (str "$E=mc^2$ is famous") in
  let doc := StateBlock.new (str "$$x^2$$") in
  inlineMathRule state true = (true, StateInline.set_pos 8 state)
  /\ StateInline.tokens (StateInline.set_pos 8 state) = StateInline.tokens state
  /\ StateInline.pos state < StateInline.pos (StateInline.set_pos 8 state)
  /\ fst (blockMathRule doc 0 1 true) = true
  /\ snd (blockMathRule doc 0 1 true) = doc.
Proof.
  intros state doc.
  assert (H : inlineMathRule state true = (true, StateInline.set_pos 8 state))
    by reflexivity.
  split; [exact H|].
  destruct (proj1 silent_mode_effects state _ H) as (Ht & _ & _ & Hp & _).
  split; [exact Ht|]. split; [exact Hp|]. split; [reflexivity|].
  exact (proj1 (proj2 silent_mode_effects doc 0 1)).
Defined.

(* ================================================================== *)
(** ** Escaped dollar signs *)

(** C4.  A [$] whose preceding code unit is a backslash is never an inline
    math delimiter: at such a [$] the rule declines in either mode and
    leaves the state untouched (not an opening delimiter), and the closing
    delimiter of every match is a [$] whose preceding code unit is not a
    backslash (not a closing delimiter).  On [\$10] the rule declines at
    every cursor position, so no math token is emitted and the host's
    chain handles the text with the rules registered after the math rule
    (its escape rule among them) as if the math rule were not there. *)
Theorem escaped_dollar_is_no_delimiter :
  (forall (state : StateInline.t) (silent : bool),
      charCodeAt (StateInline.src state) (StateInline.pos state) = Some DOLLAR ->
      0 < StateInline.pos state ->
      charCodeAt (StateInline.src state) (StateInline.pos state - 1) = Some BACKSLASH ->
      inlineMathRule state silent = (false, state))
  /\ (forall (state st' : StateInline.t) (silent : bool),
         inlineMathRule state silent = (true, st') ->
         charCodeAt (StateInline.src state) (StateInline.pos st' - 1) = Some DOLLAR
         /\ charCodeAt (StateInline.src state) (StateInline.pos st' - 2) <> Some BACKSLASH)
  /\ (forall (p : nat) (silent : bool) (rest : list InlineRule),
         inlineMathRule (escaped_price p) silent = (false, escaped_price p)
         /\ math_tokens (StateInline.tokens (snd (inlineMathRule (escaped_price p) silent))) = []
         /\ try_inline_rules (inlineMathRule :: rest) (escaped_price p)
            = try_inline_rules rest (escaped_price p)).
Proof.
  split; [|split].
  - intros state silent Hd Hpos Hb. unfold inlineMathRule.
    apply code_is_true in Hd, Hb. rewrite Hd, Hb. simpl.
    destruct (_ && _); [reflexivity|].
    apply Nat.ltb_lt in Hpos. rewrite Hpos. reflexivity.
  - intros state st' silent H.
    pose proof (inlineMathRule_match _ _ H) as (Hd & Hr & Hc & Ht & ->).
    apply closes_spec in Hc as [Hc Hnb].
    assert (Hpos : StateInline.pos
                     (StateInline.set_pos
                        (scan_closing (StateInline.src state) (StateInline.pos state + 1)
                           (StateInline.posMax state - (StateInline.pos state + 1)) + 1)
                        (if silent then state
                         else StateInline.push state "math_inline" "span"
                                (Token.set_content
                                   (slice (StateInline.src state) (StateInline.pos state + 1)
                                      (scan_closing (StateInline.src state)
                                         (StateInline.pos state + 1)
                                         (StateInline.posMax state
                                          - (StateInline.pos state + 1)))))))
                   = scan_closing (StateInline.src state) (StateInline.pos state + 1)
                       (StateInline.posMax state - (StateInline.pos state + 1)) + 1)
      by reflexivity.
    rewrite Hpos. clear Hpos.
    set (e := scan_closing _ _ _) in *.
    replace (e + 1 - 1) with e by lia.
    replace (e + 1 - 2) with (e - 1) by lia.
    split; [exact Hc|exact Hnb].
  - intros p silent rest.
    assert (H : forall m, inlineMathRule (escaped_price p) m = (false, escaped_price p)).
    { intros m.
      destruct p as [|[|[|[|p]]]]; try reflexivity.
      unfold inlineMathRule, escaped_price. simpl.
      destruct p; reflexivity. }
    split; [apply H|]. split; [now rewrite H|].
    apply try_inline_rules_skip, H.
Qed.

Lemma escaped_dollar_is_no_delimiter_witness :
  inlineMathRule (escaped_price 1) false = (false, escaped_price 1).
Proof.
  apply (proj1 escaped_dollar_is_no_delimiter (escaped_price 1) false).
  - reflexivity.
  - simpl. lia.
  - reflexivity.
Defined.

(* ================================================================== *)
(** ** Render rules: mermaid fences, math errors *)

(** The fence rule returns for every token and every highlighter. *)
Lemma fence_returns (getLanguage : jsstring -> bool) (hl : jsstring -> jsstring -> completion)
  (token : Token.t) :
  exists html, fence getLanguage hl token = Returns html.
Proof.
  unfold fence, highlight.
  destruct (JS.eqb _ _); [eexists; reflexivity|].
  destruct (_ && _); [|eexists; reflexivity].
  destruct (hl _ _); eexists; reflexivity.
Qed.

(** C6.  For a fence token whose trimmed info string is [mermaid], the
    fence rule returns the container [<div class=..mermaid..>] around the
    HTML-escaped fence body and nothing else, whatever the highlighter;
    the escaped body has no [<], [>] or double quote left in it, and
    unescaping it gives back the fence body.  The round trip
    [unescapeHtml (escapeHtml s) = s] holds for every string. *)
Theorem mermaid_fence_roundtrip
  (getLanguage : jsstring -> bool) (hl : jsstring -> jsstring -> completion)
  (token : Token.t) :
  trim (Token.info token) = str "mermaid" ->
  fence getLanguage hl token
  = Returns (str "<div class=" +++ dq "mermaid" +++ str ">"
               +++ escapeHtml (Token.content token) +++ str "</div>")
  /\ (forall c, In c (escapeHtml (Token.content token)) ->
                c <> LT /\ c <> GT /\ c <> QUOT)
  /\ unescapeHtml (escapeHtml (Token.content token)) = Token.content token
  /\ (forall s, unescapeHtml (escapeHtml s) = s).
Proof.
  intros Hinfo. split; [|split; [|split]].
  - unfold fence. rewrite Hinfo. reflexivity.
  - apply escapeHtml_no_markup.
  - apply unescape_escape.
  - apply unescape_escape.
Qed.

Lemma mermaid_fence_roundtrip_witness :
  fence (fun _ => false) (fun _ _ => Throws NotAnError) mermaid_fence
  = Returns (str "<div class=" +++ dq "mermaid" +++ str ">"
               +++ str "A --&gt; B &amp; &lt;C&gt;" +++ str "</div>")
  /\ unescapeHtml (str "A --&gt; B &amp; &lt;C&gt;") = str "A --> B & <C>".
Proof.
  destruct (@mermaid_fence_roundtrip (fun _ => false) (fun _ _ => Throws NotAnError)
              mermaid_fence) as (H & _ & Hu & _).
  - reflexivity.
  - split; [exact H|exact Hu].
Defined.

(** C7, at the fence [hostile_fence]: the rule returns, but the info
    string is copied into the [class] attribute as it is.  Its double
    quote ends the attribute value and its [<b>] follows as markup of the
    output, for every highlighter; when the highlighter does not know the
    language the whole output is as shown, with an odd number of double
    quotes: the attribute values are not well formed. *)
Theorem fence_info_not_escaped
  (getLanguage : jsstring -> bool) (hl : jsstring -> jsstring -> completion) :
  (exists code,
      fence getLanguage hl hostile_fence
      = Returns (str "<pre class=" +++ dq "hljs" +++ str "><code class=" +++ dq "language-a"
                   +++ str "><b>" +++ [QUOT] +++ str ">" +++ code +++ str "</code></pre>"))
  /\ fence (fun _ => false) hl hostile_fence
     = Returns (str "<pre class=" +++ dq "hljs" +++ str "><code class=" +++ dq "language-a"
                  +++ str "><b>" +++ [QUOT] +++ str ">x</code></pre>")
  /\ (exists html, fence (fun _ => false) hl hostile_fence = Returns html
                   /\ Nat.odd (occurrences QUOT html) = true).
Proof.
  split; [|split; [reflexivity|]].
  - unfold fence, highlight, hostile_fence.
    cbn [Token.info Token.content].
    change (JS.eqb (trim (str "a" +++ [QUOT] +++ str "><b>")) (str "mermaid")) with false.
    cbv iota.
    destruct (_ && _).
    + destruct (hl _ _) as [v|e]; cbn [try_catch JS.bind];
        eexists; reflexivity.
    + cbn [JS.bind]. eexists; reflexivity.
  - eexists. split; reflexivity.
Qed.

(** C8.  The render rules of [math_block] and [math_inline] tokens return
    for every token and every behaviour of the math engine.  When
    [renderToString] throws, the rule returns the error fragment, a [div]
    (block) or a [span] (inline) of class [math-error] around the
    HTML-escaped message of the exception, which is the [message] of a
    thrown [Error] and the text [Unknown error] for any other thrown
    value.  Hence a token stream renders to the end whenever the host's
    own rules return. *)
Theorem math_render_rules_never_throw
  (katex : jsstring -> bool -> completion) (token : Token.t) :
  (exists html, math_block katex token = Returns html)
  /\ (exists html, math_inline katex token = Returns html)
  /\ (forall e, katex (Token.content token) true = Throws e ->
         math_block katex token
         = Returns (str "<div class=" +++ dq "math-error" +++ str ">Math error: "
                      +++ escapeHtml (errorMessage e) +++ str "</div>"))
  /\ (forall e, katex (Token.content token) false = Throws e ->
         math_inline katex token
         = Returns (str "<span class=" +++ dq "math-error" +++ str ">Math error: "
                      +++ escapeHtml (errorMessage e) +++ str "</span>"))
  /\ (forall message, errorMessage (Error message) = message)
  /\ (forall getLanguage hl default tokens,
         (forall t, exists html, default t = Returns html) ->
         exists html, render katex getLanguage hl default tokens = Returns html).
Proof.
  split; [|split; [|split; [|split; [|split]]]].
  - unfold math_block. destruct (katex _ _); eexists; reflexivity.
  - unfold math_inline. destruct (katex _ _); eexists; reflexivity.
  - intros e H. unfold math_block. rewrite H. reflexivity.
  - intros e H. unfold math_inline. rewrite H. reflexivity.
  - reflexivity.
  - intros getLanguage hl default tokens Hdef.
    induction tokens as [|t tokens [html IH]]; [eexists; reflexivity|].
    assert (Hrule : exists h, render_rule katex getLanguage hl default t = Returns h).
    { unfold render_rule.
      destruct (String.eqb _ "math_block").
      { unfold math_block. destruct (katex _ _); eexists; reflexivity. }
      destruct (String.eqb _ "math_inline").
      { unfold math_inline. destruct (katex _ _); eexists; reflexivity. }
      destruct (String.eqb _ "fence"); [apply fence_returns|apply Hdef]. }
    destruct Hrule as [h Hh].
    exists (h +++ html). simpl. rewrite Hh. simpl. rewrite IH. reflexivity.
Qed.

Lemma math_render_rules_never_throw_witness :
  math_block failing_katex (Token.set_content (str "x^2") (Token.new "math_block" "div" 0%Z))
  = Returns (str "<div class=" +++ dq "math-error"
               +++ str ">Math error: bad &lt;formula&gt;</div>").
Proof.
  destruct (math_render_rules_never_throw failing_katex
              (Token.set_content (str "x^2") (Token.new "math_block" "div" 0%Z)))
    as (_ & _ & H & _).
  rewrite (H (Error (str "bad <formula>"))); reflexivity.
Defined.

(* ================================================================== *)
(** ** Blank inline spans *)




(* ================================================================== *)
(** ** Objects: reading after writing *)

Lemma eqb_refl (a : jsstring) : JS.eqb a a = true.
Proof. now apply eqb_eq. Qed.

Lemma get_set_same (o : Obj.t) (k : jsstring) (v : jsvalue) :
  Obj.get (Obj.set o k v) k = v.
Proof.
  induction o as [|[k' v'] o IH]; simpl.
  - now rewrite eqb_refl.
  - destruct (JS.eqb k' k) eqn:E; simpl.
    + now rewrite eqb_refl.
    + now rewrite E.
Qed.

Lemma get_set_other (o : Obj.t) (k k' : jsstring) (v : jsvalue) :
  k <> k' -> Obj.get (Obj.set o k v) k' = Obj.get o k'.
Proof.
  intros Hne. induction o as [|[k0 v0] o IH]; simpl.
  - apply eqb_neq in Hne. now rewrite Hne.
  - destruct (JS.eqb k0 k) eqn:E; simpl.
    + apply eqb_eq in E. subst k0. apply eqb_neq in Hne. now rewrite Hne.
    + destruct (JS.eqb k0 k'); [reflexivity|exact IH].
Qed.

Lemma has_set (o : Obj.t) (k k' : jsstring) (v : jsvalue) :
  Obj.has (Obj.set o k v) k' = JS.eqb k k' || Obj.has o k'.
Proof.
  induction o as [|[k0 v0] o IH]; simpl.
  - reflexivity.
  - destruct (JS.eqb k0 k) eqn:E; simpl.
    + apply eqb_eq in E. subst k0. now destruct (JS.eqb k k').
    + rewrite IH. destruct (JS.eqb k0 k'), (JS.eqb k k'); reflexivity.
Qed.

Lemma has_In (o : Obj.t) (k : jsstring) :
  Obj.has o k = true <-> In k (List.map fst o).
Proof.
  induction o as [|[k' v'] o IH]; simpl.
  - split; [discriminate|tauto].
  - rewrite orb_true_iff, eqb_eq, IH. tauto.
Qed.

Lemma get_absent (o : Obj.t) (k : jsstring) :
  Obj.has o k = false -> Obj.get o k = VUndefined.
Proof.
  induction o as [|[k' v'] o IH]; simpl; [reflexivity|].
  destruct (JS.eqb k' k); simpl; [discriminate|exact IH].
Qed.

Lemma set_wf (o : Obj.t) (k : jsstring) (v : jsvalue) :
  Obj.wf o -> Obj.wf (Obj.set o k v).
Proof.
  unfold Obj.wf. induction o as [|[k' v'] o IH]; simpl; intros H.
  - constructor; [tauto|constructor].
  - inversion H as [|? ? Hnin Hnd]; subst.
    destruct (JS.eqb k' k) eqn:E; simpl.
    + apply eqb_eq in E. subst k'. now constructor.
    + constructor; [|now apply IH].
      intros Hin. apply has_In in Hin. rewrite has_set in Hin.
      apply orb_true_iff in Hin as [Hin|Hin].
      * apply eqb_eq in Hin. subst k'. rewrite eqb_refl in E. discriminate.
      * apply has_In in Hin. contradiction.
Qed.

Lemma spread_wf (base over : Obj.t) : Obj.wf base -> Obj.wf (Obj.spread base over).
Proof.
  unfold Obj.spread. revert base.
  induction over as [|[k v] over IH]; intros base H; simpl; [exact H|].
  apply IH. now apply set_wf.
Qed.

(** Reading a spread: the later object wins on the keys it has. *)
Lemma get_spread (base over : Obj.t) (k : jsstring) :
  Obj.wf over ->
  Obj.get (Obj.spread base over) k
  = if Obj.has over k then Obj.get over k else Obj.get base k.
Proof.
  unfold Obj.spread, Obj.wf. revert base.
  induction over as [|[k1 v1] over IH]; intros base Hwf; simpl; [reflexivity|].
  inversion Hwf as [|? ? Hnin Hnd]; subst.
  rewrite IH by exact Hnd.
  destruct (JS.eqb k1 k) eqn:E; simpl.
  - apply eqb_eq in E. subst k1.
    destruct (Obj.has over k) eqn:Hh.
    + apply has_In in Hh. contradiction.
    + apply get_set_same.
  - destruct (Obj.has over k); [reflexivity|].
    apply get_set_other. intros ->. rewrite eqb_refl in E. discriminate.
Qed.

Lemma has_spread (base over : Obj.t) (k : jsstring) :
  Obj.has (Obj.spread base over) k = Obj.has over k || Obj.has base k.
Proof.
  unfold Obj.spread. revert base.
  induction over as [|[k1 v1] over IH]; intros base; simpl; [reflexivity|].
  rewrite IH, has_set.
  destruct (JS.eqb k1 k), (Obj.has over k), (Obj.has base k); reflexivity.
Qed.

(* ================================================================== *)
(** ** [mergeConfig] *)

Lemma entries_wf (c : Obj.t) :
  config_ok c -> Obj.wf (Obj.entries (Obj.get c (str "pdf_options"))).
Proof.
  intros [_ H]. destruct (Obj.get c (str "pdf_options")); simpl;
    try constructor; try contradiction; exact H.
Qed.

(** X1.  [mergeConfig(base, override)], for configurations as their type
    declares them.  On every key but [pdf_options] the override wins
    whenever it has the key, also when its value there is [undefined];
    otherwise the base is read.  [pdf_options] of the result is always an
    object, merged one level deep by the same rule, so a field of
    [pdf_options] that is itself an object (the margin) is taken whole
    from the override when the override has it. *)
Theorem mergeConfig_lookup (base override : Obj.t) :
  config_ok base -> config_ok override ->
  (forall k, k <> str "pdf_options" ->
     Obj.get (mergeConfig base override) k
     = if Obj.has override k then Obj.get override k else Obj.get base k)
  /\ (exists fields,
        Obj.get (mergeConfig base override) (str "pdf_options") = VObj fields
        /\ Obj.wf fields
        /\ forall k,
             Obj.get fields k
             = if Obj.has (Obj.entries (Obj.get override (str "pdf_options"))) k
               then Obj.get (Obj.entries (Obj.get override (str "pdf_options"))) k
               else Obj.get (Obj.entries (Obj.get base (str "pdf_options"))) k)
  /\ Obj.wf (mergeConfig base override).
Proof.
  intros Hb Ho. pose proof (entries_wf Hb) as Hbe. pose proof (entries_wf Ho) as Hoe.
  destruct Hb as [Hb _], Ho as [Ho _].
  unfold mergeConfig. split; [|split].
  - intros k Hk. rewrite get_set_other by congruence.
    rewrite get_spread by exact Ho.
    destruct (Obj.has override k); [reflexivity|].
    rewrite get_spread by exact Hb.
    destruct (Obj.has base k) eqn:E; [reflexivity|].
    simpl. symmetry. now apply get_absent.
  - eexists. split; [apply get_set_same|]. split.
    + apply spread_wf, spread_wf. constructor.
    + intros k. rewrite get_spread by exact Hoe.
      destruct (Obj.has _ k); [reflexivity|].
      rewrite get_spread by exact Hbe.
      destruct (Obj.has _ k) eqn:E; [reflexivity|].
      simpl. symmetry. now apply get_absent.
  - apply set_wf, spread_wf, spread_wf. constructor.
Qed.

Lemma mergeConfig_lookup_witness :
  let base := [(str "document_title", VStr (str "Report"));
               (str "pdf_options",
                VObj [(str "format", VStr (str "A4"));
                      (str "margin", VObj [(str "top", VStr (str "1cm"))])])] in
  let override := [(str "document_title", VUndefined);
                   (str "pdf_options",
                    VObj [(str "margin", VObj [(str "left", VStr (str "2cm"))])])] in
  Obj.get (mergeConfig base override) (str "document_title") = VUndefined
  /\ Obj.get (mergeConfig base override) (str "pdf_options")
     = VObj [(str "format", VStr (str "A4"));
             (str "margin", VObj [(str "left", VStr (str "2cm"))])].
Proof.
  intros base override.
  assert (Hb : config_ok base).
  { split; [|simpl]; repeat constructor; simpl; intuition discriminate. }
  assert (Ho : config_ok override).
  { split; [|simpl]; repeat constructor; simpl; intuition discriminate. }
  destruct (mergeConfig_lookup Hb Ho) as (H & _ & _).
  split; [|reflexivity].
  rewrite (H (str "document_title")); [reflexivity|discriminate].
Defined.

(* ================================================================== *)
(** ** [parseMargin] *)

Lemma split_on_not_nil (sep : code_unit) (s : jsstring) : split_on sep s <> [].
Proof.
  induction s as [|c s IH]; simpl; [discriminate|].
  destruct (N.eqb c sep); [discriminate|].
  destruct (split_on sep s); discriminate.
Qed.

Lemma split_on_app (sep : code_unit) (a b : jsstring) :
  split_on sep (a ++ sep :: b) = split_on sep a ++ split_on sep b.
Proof.
  induction a as [|c a IH]; simpl.
  - now rewrite N.eqb_refl.
  - destruct (N.eqb c sep); [now rewrite IH|].
    rewrite IH. pose proof (split_on_not_nil sep a) as Hne.
    destruct (split_on sep a); [contradiction|reflexivity].
Qed.

Lemma split_on_word (sep : code_unit) (w : jsstring) :
  ~ In sep w -> split_on sep w = [w].
Proof.
  induction w as [|c w IH]; simpl; intros H; [reflexivity|].
  destruct (N.eqb_spec c sep) as [->|Hne]; [exfalso; apply H; now left|].
  rewrite IH; [reflexivity|]. intros Hin. apply H. now right.
Qed.

(** The pieces of a split have no separator in them. *)
Lemma split_on_pieces (sep : code_unit) (s : jsstring) :
  Forall (fun piece => ~ In sep piece) (split_on sep s).
Proof.
  induction s as [|c s IH]; simpl.
  - constructor; [tauto|constructor].
  - destruct (N.eqb_spec c sep) as [->|Hne].
    + constructor; [tauto|exact IH].
    + destruct (split_on sep s) as [|piece pieces]; [repeat constructor; simpl; intuition auto|].
      inversion IH; subst. constructor; [|assumption].
      simpl. intros [E|Hin]; [congruence|contradiction].
Qed.

(** Splitting at a space and dropping the empty pieces is compositional. *)
Lemma margin_parts_app (a b : jsstring) :
  margin_parts (a ++ SPACE :: b) = margin_parts a ++ margin_parts b.
Proof. unfold margin_parts. now rewrite split_on_app, filter_app. Qed.

Lemma margin_parts_word (w : jsstring) : margin_word w -> margin_parts w = [w].
Proof.
  intros [Hne Hsp]. unfold margin_parts. rewrite split_on_word by exact Hsp.
  simpl. destruct w; [contradiction|reflexivity].
Qed.

Lemma margin_parts_words (s : jsstring) : Forall margin_word (margin_parts s).
Proof.
  unfold margin_parts. apply Forall_forall. intros w Hin.
  apply filter_In in Hin as [Hin Ht].
  split.
  - intros ->. discriminate.
  - pose proof (split_on_pieces SPACE s) as H.
    rewrite Forall_forall in H. now apply H.
Qed.

Lemma margin_parts_join (ws : list jsstring) :
  Forall margin_word ws -> margin_parts (join [SPACE] ws) = ws.
Proof.
  induction 1 as [|w ws Hw Hws IH]; [reflexivity|].
  destruct ws as [|w' ws].
  - simpl. now apply margin_parts_word.
  - change (join [SPACE] (w :: w' :: ws)) with (w ++ SPACE :: join [SPACE] (w' :: ws)).
    rewrite margin_parts_app, IH, margin_parts_word by exact Hw. reflexivity.
Qed.

(** X2.  [parseMargin] reads one to four values separated by single spaces
    as the CSS margin shorthand: one value for all sides; two for top and
    bottom, right and left; three for top, right and left, bottom; four
    for top, right, bottom, left.  Values after the fourth are ignored. *)
Theorem parseMargin_shorthand (a b c d : jsstring) (more : list jsstring) :
  Forall margin_word (a :: b :: c :: d :: more) ->
  parseMargin (join [SPACE] [a]) = Build_Margin a a a a
  /\ parseMargin (join [SPACE] [a; b]) = Build_Margin a b a b
  /\ parseMargin (join [SPACE] [a; b; c]) = Build_Margin a b c b
  /\ parseMargin (join [SPACE] (a :: b :: c :: d :: more)) = Build_Margin a b c d.
Proof.
  intros H.
  rewrite !Forall_cons_iff in H. destruct H as (Ha & Hb & Hc & Hd & Hmore).
  unfold parseMargin.
  rewrite !margin_parts_join by (repeat (constructor; [assumption|]); auto).
  repeat split.
Qed.

Lemma parseMargin_shorthand_witness :
  parseMargin (str "1cm 2cm") = Build_Margin (str "1cm") (str "2cm") (str "1cm") (str "2cm")
  /\ parseMargin (str "1cm 2cm 3cm 4cm 5cm")
     = Build_Margin (str "1cm") (str "2cm") (str "3cm") (str "4cm").
Proof.
  assert (Hw : forall s, s <> [] -> forallb (fun c => negb (N.eqb c SPACE)) s = true ->
                         margin_word s).
  { intros s Hne Hall. split; [exact Hne|]. intros Hin.
    rewrite forallb_forall in Hall. apply Hall in Hin.
    rewrite N.eqb_refl in Hin. discriminate. }
  destruct (@parseMargin_shorthand (str "1cm") (str "2cm") (str "3cm") (str "4cm")
              [str "5cm"]) as (_ & H2 & _ & H4).
  - repeat constructor; apply Hw; (discriminate || reflexivity).
  - split; [exact H2|exact H4].
Defined.

Lemma margin_parts_blank (s : jsstring) :
  (forall c, In c s -> c = SPACE) -> margin_parts s = [].
Proof.
  induction s as [|c s IH]; intros H; [reflexivity|].
  assert (Hc : c = SPACE) by (apply H; now left). subst c.
  change (SPACE :: s) with ([] ++ SPACE :: s).
  rewrite margin_parts_app. simpl. apply IH. intros c Hin. apply H. now right.
Qed.

Lemma margin_parts_nonblank (s : jsstring) (c : code_unit) :
  In c s -> c <> SPACE -> margin_parts s <> [].
Proof.
  induction s as [|x s IH]; intros Hin Hne; [contradiction|].
  destruct (N.eqb_spec x SPACE) as [->|Hx].
  - change (SPACE :: s) with ([] ++ SPACE :: s). rewrite margin_parts_app. simpl.
    apply IH; [|exact Hne]. destruct Hin as [E|Hin]; [congruence|exact Hin].
  - unfold margin_parts. simpl. apply N.eqb_neq in Hx. rewrite Hx.
    pose proof (split_on_not_nil SPACE s) as Hnn.
    destruct (split_on SPACE s); [contradiction|]. simpl. discriminate.
Qed.

(** X3.  Every side [parseMargin] returns is one of the space-separated
    pieces of the text, not empty and without a space, as soon as the text
    has a character other than a space; for the empty text and for a text
    of spaces only, the four sides are the text itself. *)
Theorem parseMargin_sides (margin : jsstring) :
  ((forall c, In c margin -> c = SPACE) ->
   parseMargin margin = Build_Margin margin margin margin margin)
  /\ (forall c, In c margin -> c <> SPACE ->
      Forall (fun side => margin_word side /\ In side (margin_parts margin))
        [top (parseMargin margin); right (parseMargin margin);
         bottom (parseMargin margin); left (parseMargin margin)]).
Proof.
  split.
  - intros H. unfold parseMargin. now rewrite margin_parts_blank.
  - intros c Hin Hne.
    pose proof (margin_parts_words margin) as Hw.
    pose proof (margin_parts_nonblank margin Hin Hne) as Hnn.
    unfold parseMargin.
    destruct (margin_parts margin) as [|p1 [|p2 [|p3 [|p4 rest]]]]; [contradiction| | | |];
      rewrite ?Forall_cons_iff in Hw; cbn [top right bottom left];
      repeat (apply Forall_cons; [split; [tauto|simpl; tauto]|]); apply Forall_nil.
Qed.

Lemma parseMargin_sides_witness :
  parseMargin (str "  ") = Build_Margin (str "  ") (str "  ") (str "  ") (str "  ")
  /\ margin_word (top (parseMargin (str " 1cm  2cm "))).
Proof.
  split.
  - apply (proj1 (parseMargin_sides (str "  "))).
    intros c [<-|[<-|[]]]; reflexivity.
  - assert (H : In 49%N (str " 1cm  2cm ")) by (simpl; tauto).
    pose proof (proj2 (parseMargin_sides (str " 1cm  2cm ")) 49%N H) as Hs.
    assert (Hne : 49%N <> SPACE) by discriminate.
    specialize (Hs Hne). inversion Hs as [|? ? [Hw _] _]. exact Hw.
Defined.

(* ================================================================== *)
(** ** [parseArgs] *)

Lemma set_set (o : Obj.t) (k : jsstring) (v v' : jsvalue) :
  Obj.set (Obj.set o k v) k v' = Obj.set o k v'.
Proof.
  induction o as [|[k0 v0] o IH]; simpl.
  - now rewrite eqb_refl.
  - destruct (JS.eqb k0 k) eqn:E; simpl.
    + now rewrite eqb_refl.
    + now rewrite E, IH.
Qed.

(** A turn of the loop leaves the positionals alone or appends the
    argument, which then does not start with a dash, and never touches
    [output]. *)
Lemma parseArgs_step_inputs (J : jsstring -> bool) (r r' : ParsedArgs)
  (arg : jsstring) (next : option jsstring) (consumed : bool) :
  parseArgs_step J r arg next = Done (r', consumed) ->
  output r' = output r
  /\ (inputs r' = inputs r
      \/ (inputs r' = inputs r ++ [arg] /\ startsWith (str "-") arg = false
          /\ consumed = false)).
Proof.
  step_cases; intros H; try discriminate; injection H as <- <-; simpl;
    (split; [reflexivity|]); try (left; reflexivity).
  right. repeat split.
  match goal with
  | H : negb (startsWith (str "-") arg) = true |- _ => now apply negb_true_iff in H
  end.
Qed.

Lemma subseq_nil_l {A : Type} (l : list A) : subseq [] l.
Proof. induction l; constructor; assumption. Qed.

(** The positionals the loop adds: arguments that do not start with a
    dash, in the order of the command line. *)
Lemma parseArgs_loop_inputs (J : jsstring -> bool) (n : nat) :
  forall (args : list jsstring) (r r' : ParsedArgs),
    List.length args <= n ->
    parseArgs_loop J args r = Done r' ->
    output r' = output r
    /\ exists added,
         inputs r' = inputs r ++ added
         /\ Forall (fun x => startsWith (str "-") x = false) added
         /\ subseq added args.
Proof.
  induction n as [|n IH]; intros args r r' Hlen H.
  - destruct args; [|simpl in Hlen; lia].
    injection H as <-. split; [reflexivity|].
    exists []. rewrite app_nil_r. repeat constructor.
  - destruct args as [|arg rest].
    { injection H as <-. split; [reflexivity|].
      exists []. rewrite app_nil_r. repeat constructor. }
    simpl in H, Hlen.
    destruct (parseArgs_step J r arg (hd_error rest)) as [[r1 consumed]| |] eqn:Hs;
      try discriminate.
    apply parseArgs_step_inputs in Hs as [Hout Hin].
    destruct consumed.
    + destruct Hin as [Hin|(_ & _ & Habs)]; [|discriminate].
      destruct rest as [|x rest'].
      * injection H as <-. split; [exact Hout|].
        exists []. rewrite app_nil_r. split; [exact Hin|].
        split; [constructor|apply subseq_nil_l].
      * apply IH in H as [Ho (added & Ha & Hf & Hsub)]; [|simpl in Hlen; lia].
        split; [congruence|].
        exists added. rewrite Ha, Hin. split; [reflexivity|].
        split; [exact Hf|]. now do 2 constructor.
    + apply IH in H as [Ho (added & Ha & Hf & Hsub)]; [|lia].
      split; [congruence|].
      destruct Hin as [Hin|(Hin & Hdash & _)].
      * exists added. rewrite Ha, Hin. split; [reflexivity|].
        split; [exact Hf|]. now constructor.
      * exists (arg :: added). rewrite Ha, Hin, <- app_assoc.
        split; [reflexivity|]. split; [now constructor|now constructor].
Qed.

Lemma parseArgs_positionals (J : jsstring -> bool) (args : list jsstring) (r : ParsedArgs) :
  parseArgs J args = Done r ->
  exists r0,
    r = take_output r0 /\ output r0 = None
    /\ Forall (fun x => startsWith (str "-") x = false) (inputs r0)
    /\ subseq (inputs r0) args.
Proof.
  unfold parseArgs.
  destruct (parseArgs_loop J args initial_args) as [r0| |] eqn:Hl; try discriminate.
  intros H. injection H as <-.
  apply (parseArgs_loop_inputs J (n := List.length args)) in Hl as [Ho (added & Ha & Hf & Hs)];
    [|lia].
  simpl in Ha, Ho. subst added. exists r0. repeat split; assumption.
Qed.

Lemma positionals_take_output (r0 : ParsedArgs) :
  output r0 = None -> positionals_of (take_output r0) = inputs r0.
Proof.
  intros Ho. unfold positionals_of, take_output.
  destruct (inputs r0) as [|a [|b [|c l]]] eqn:E; rewrite ?Ho, ?E, ?app_nil_r; try reflexivity.
  destruct (_ || _); simpl; rewrite ?Ho, ?E, ?app_nil_r; reflexivity.
Qed.

(** X4.  No argument that starts with a dash ever becomes a positional of
    [parseArgs]: every input, and the output when there is one, starts
    with another character.  In particular the argument [-], which the
    help text gives as the way to read standard input, is never an input
    and never the output. *)
Theorem parseArgs_no_dash_positional
  (JSON_valid : jsstring -> bool) (args : list jsstring) (r : ParsedArgs) :
  parseArgs JSON_valid args = Done r ->
  Forall (fun x => startsWith (str "-") x = false) (positionals_of r)
  /\ ~ In (str "-") (inputs r)
  /\ output r <> Some (str "-").
Proof.
  intros H. apply parseArgs_positionals in H as (r0 & -> & Ho & Hf & _).
  assert (Hall : Forall (fun x => startsWith (str "-") x = false)
                   (positionals_of (take_output r0))).
  { now rewrite positionals_take_output. }
  split; [exact Hall|].
  rewrite Forall_forall in Hall. unfold positionals_of in Hall. split.
  - intros Hin. specialize (Hall (str "-")).
    rewrite in_app_iff in Hall. specialize (Hall (or_introl Hin)). discriminate.
  - intros E. specialize (Hall (str "-")).
    rewrite in_app_iff, E in Hall. specialize (Hall (or_intror (or_introl eq_refl))).
    discriminate.
Qed.

Lemma parseArgs_no_dash_positional_witness :
  match parseArgs (fun _ => true) [str "-"; str "notes.md"] with
  | Done r => ~ In (str "-") (inputs r) /\ inputs r = [str "notes.md"]
  | _ => False
  end.
Proof.
  destruct (parseArgs (fun _ => true) [str "-"; str "notes.md"]) as [r| |] eqn:E;
    try discriminate.
  split.
  - exact (proj1 (proj2 (@parseArgs_no_dash_positional (fun _ => true) _ r E))).
  - injection E as <-. reflexivity.
Defined.

(** X5.  The positionals of [parseArgs], inputs then output, are arguments
    of the command line in their order.  An output is taken exactly when
    there are two positionals and the second ends in [.pdf] or [.html]:
    then one input is left; otherwise all positionals are inputs. *)
Theorem parseArgs_output_rule
  (JSON_valid : jsstring -> bool) (args : list jsstring) (r : ParsedArgs) :
  parseArgs JSON_valid args = Done r ->
  subseq (positionals_of r) args
  /\ match output r with
     | Some o =>
       exists first, inputs r = [first]
                     /\ endsWith o (str ".pdf") || endsWith o (str ".html") = true
     | None =>
       forall first second, inputs r = [first; second] ->
         endsWith second (str ".pdf") || endsWith second (str ".html") = false
     end.
Proof.
  intros H. apply parseArgs_positionals in H as (r0 & -> & Ho & Hf & Hs).
  split; [now rewrite positionals_take_output|].
  unfold take_output.
  destruct (inputs r0) as [|a [|b [|c l]]] eqn:E.
  - rewrite Ho, E. intros ? ? ?. discriminate.
  - rewrite Ho, E. intros ? ? ?. discriminate.
  - assert (Hb : JS.eqb b (str "-") = false).
    { rewrite !Forall_cons_iff in Hf. destruct Hf as (_ & Hb & _).
      destruct (JS.eqb b (str "-")) eqn:Eb; [|reflexivity].
      apply eqb_eq in Eb. subst b. discriminate. }
    rewrite Hb, orb_false_r.
    destruct (endsWith b (str ".pdf") || endsWith b (str ".html")) eqn:Eo; simpl.
    + exists a. split; [reflexivity|exact Eo].
    + rewrite Ho, E. intros first second Hfs. injection Hfs as <- <-. exact Eo.
  - rewrite Ho, E. intros ? ? ?. discriminate.
Qed.

Lemma parseArgs_output_rule_witness :
  match parseArgs (fun _ => true) [str "a.md"; str "--landscape"; str "out.pdf"] with
  | Done r => subseq (positionals_of r) [str "a.md"; str "--landscape"; str "out.pdf"]
              /\ output r = Some (str "out.pdf")
  | _ => False
  end.
Proof.
  destruct (parseArgs (fun _ => true) [str "a.md"; str "--landscape"; str "out.pdf"])
    as [r| |] eqn:E; try discriminate.
  split.
  - exact (proj1 (@parseArgs_output_rule (fun _ => true) _ r E)).
  - injection E as <-. reflexivity.
Defined.

Lemma is_opt_nodash (arg : jsstring) (s : string) :
  startsWith (str "-") arg = false -> In s known_options -> is_opt arg s = false.
Proof.
  intros Hd Hin. unfold is_opt.
  destruct (JS.eqb arg (str s)) eqn:E; [|reflexivity].
  apply eqb_eq in E. subst arg. exfalso.
  simpl in Hin.
  repeat (destruct Hin as [<-|Hin]; [discriminate|]). exact Hin.
Qed.

Lemma is_opt_unknown (arg : jsstring) (s : string) :
  ~ In arg (List.map str known_options) -> In s known_options -> is_opt arg s = false.
Proof.
  intros Hn Hin. unfold is_opt.
  destruct (JS.eqb arg (str s)) eqn:E; [|reflexivity].
  apply eqb_eq in E. subst arg. exfalso. apply Hn. now apply in_map.
Qed.

(** A turn at an argument that is none of the options. *)
Lemma parseArgs_step_other (J : jsstring -> bool) (r : ParsedArgs) (arg : jsstring)
  (next : option jsstring) :
  (forall s, In s known_options -> is_opt arg s = false) ->
  parseArgs_step J r arg next
  = if negb (startsWith (str "-") arg) then Done (push_inputs [arg] r, false)
    else Done (r, false).
Proof.
  intros H. unfold parseArgs_step.
  repeat match goal with
         | |- context [is_opt arg ?s] => rewrite (H s) by known
         end.
  reflexivity.
Qed.

Lemma push_inputs_app (a b : list jsstring) (r : ParsedArgs) :
  push_inputs b (push_inputs a r) = push_inputs (a ++ b) r.
Proof. unfold push_inputs. simpl. now rewrite app_assoc. Qed.

Lemma push_inputs_nil (r : ParsedArgs) : push_inputs [] r = r.
Proof. destruct r. unfold push_inputs. simpl. now rewrite app_nil_r. Qed.

(** Leading positionals are pushed and the loop goes on after them. *)
Lemma parseArgs_loop_files (J : jsstring -> bool) (files rest : list jsstring) :
  Forall (fun x => startsWith (str "-") x = false) files ->
  forall r, parseArgs_loop J (files ++ rest) r = parseArgs_loop J rest (push_inputs files r).
Proof.
  induction 1 as [|f files Hf _ IH]; intros r.
  - now rewrite push_inputs_nil.
  - simpl. rewrite parseArgs_step_other by (intros s Hs; now apply is_opt_nodash).
    rewrite Hf. simpl. rewrite IH, push_inputs_app. reflexivity.
Qed.

(** X6.  An option that needs a value and comes last on the command line,
    after any number of file names: [--margin] and [--script] end
    [parseArgs] with a [TypeError], [--launch-options] and
    [--markdown-options] with exit code 1, while [--title] is accepted and
    stores the key [document_title] with the value [undefined], and
    [--css] stores the text [undefined]. *)
Theorem parseArgs_missing_value (JSON_valid : jsstring -> bool) (files : list jsstring) :
  Forall (fun x => startsWith (str "-") x = false) files ->
  parseArgs JSON_valid (files ++ [str "--margin"]) = TypeError
  /\ parseArgs JSON_valid (files ++ [str "--script"]) = TypeError
  /\ parseArgs JSON_valid (files ++ [str "--launch-options"]) = Exit 1
  /\ parseArgs JSON_valid (files ++ [str "--markdown-options"]) = Exit 1
  /\ (exists r, parseArgs JSON_valid (files ++ [str "--title"]) = Done r
                /\ Obj.has (config r) (str "document_title") = true
                /\ Obj.get (config r) (str "document_title") = VUndefined)
  /\ (exists r, parseArgs JSON_valid (files ++ [str "--css"]) = Done r
                /\ Obj.get (config r) (str "css") = VStr (str "undefined")).
Proof.
  intros Hf. unfold parseArgs. rewrite !parseArgs_loop_files by exact Hf.
  repeat split; try reflexivity; eexists; (split; [reflexivity|]); try split;
    unfold take_output; simpl;
    repeat match goal with
           | |- context [match ?l with [] => _ | _ :: _ => _ end] => destruct l
           | |- context [if ?c then _ else _] => destruct c
           end; reflexivity.
Qed.

Lemma parseArgs_missing_value_witness :
  parseArgs (fun _ => true) [str "a.md"; str "--margin"] = TypeError.
Proof.
  apply (@parseArgs_missing_value (fun _ => true) [str "a.md"]).
  repeat constructor.
Defined.

(** X7.  An argument that starts with a dash and is none of the options
    [parseArgs] knows is skipped without a message when the loop reads it
    in option position, that is, as the first of the arguments still to be
    read: the loop goes on with the arguments after it and the same state.
    This holds in option position only.  An option that takes a value
    takes the next argument whatever it looks like: right after [--title]
    the same argument is stored as the title and the loop goes on after
    it. *)
Theorem parseArgs_unknown_option_ignored
  (JSON_valid : jsstring -> bool) (arg : jsstring) (rest : list jsstring) :
  startsWith (str "-") arg = true ->
  ~ In arg (List.map str known_options) ->
  (forall r, parseArgs_loop JSON_valid (arg :: rest) r = parseArgs_loop JSON_valid rest r)
  /\ parseArgs JSON_valid (arg :: rest) = parseArgs JSON_valid rest
  /\ (forall r, parseArgs_loop JSON_valid (str "--title" :: arg :: rest) r
                = parseArgs_loop JSON_valid rest
                    (set_config (Obj.set (config r) (str "document_title") (VStr arg)) r)).
Proof.
  intros Hd Hn.
  assert (H : forall r, parseArgs_loop JSON_valid (arg :: rest) r
                        = parseArgs_loop JSON_valid rest r).
  { intros r. simpl.
    rewrite parseArgs_step_other by (intros s Hs; now apply is_opt_unknown).
    now rewrite Hd. }
  split; [exact H|]. split; [unfold parseArgs; now rewrite H|].
  intros r. reflexivity.
Qed.

Lemma parseArgs_unknown_option_ignored_witness :
  parseArgs (fun _ => true) [str "--landscpe"; str "a.md"]
  = parseArgs (fun _ => true) [str "a.md"].
Proof.
  apply (@parseArgs_unknown_option_ignored (fun _ => true) (str "--landscpe") [str "a.md"]).
  - reflexivity.
  - simpl. intros H.
    repeat (destruct H as [H|H]; [discriminate|]). exact H.
Defined.

(** X8.  Two [--css] options one after the other have the effect of one
    with the two texts concatenated, in every state of the loop. *)
Theorem parseArgs_css_accumulates
  (JSON_valid : jsstring -> bool) (a b : jsstring) (rest : list jsstring)
  (r : ParsedArgs) :
  parseArgs_loop JSON_valid (str "--css" :: a :: str "--css" :: b :: rest) r
  = parseArgs_loop JSON_valid (str "--css" :: (a ++ b) :: rest) r.
Proof.
  simpl. rewrite get_set_same, set_set. simpl.
  now rewrite <- app_assoc.
Qed.

(* ================================================================== *)
(** ** [parseFrontmatter]: the fences *)

Lemma startsWith_app (pat s : jsstring) :
  startsWith pat s = true -> s = pat ++ skipn (List.length pat) s.
Proof.
  revert s; induction pat as [|p pat IH]; intros s; simpl; [reflexivity|].
  destruct s as [|c s]; [discriminate|].
  rewrite andb_true_iff, N.eqb_eq. intros [-> H]. f_equal. now apply IH.
Qed.

Lemma eat_newline_spec (s rest : jsstring) :
  eat_newline s = Some rest -> exists nl, newline nl /\ s = nl ++ rest.
Proof.
  unfold eat_newline, newline.
  destruct s as [|c s]; [discriminate|].
  destruct (N.eqb_spec c LF) as [->|_].
  - intros H. injection H as <-. exists [LF]. auto.
  - destruct (N.eqb_spec c CR) as [->|_]; [|discriminate].
    destruct s as [|c' s]; [discriminate|].
    destruct (N.eqb_spec c' LF) as [->|_]; [|discriminate].
    intros H. injection H as <-. exists [CR; LF]. auto.
Qed.

Lemma closing_fence_spec (s rest : jsstring) :
  closing_fence s = Some rest ->
  exists nl2 nl3, newline nl2 /\ newline nl3 /\ s = nl2 ++ str "---" ++ nl3 ++ rest.
Proof.
  unfold closing_fence.
  destruct (eat_newline s) as [r1|] eqn:E1; [|discriminate].
  destruct (startsWith (str "---") r1) eqn:Es; [|discriminate].
  intros E2.
  apply eat_newline_spec in E1 as (nl2 & Hn2 & ->).
  apply eat_newline_spec in E2 as (nl3 & Hn3 & E3).
  apply startsWith_app in Es. change (List.length (str "---")) with 3 in Es.
  exists nl2, nl3. repeat split; try assumption.
  rewrite Es at 1. rewrite E3. reflexivity.
Qed.

Lemma lazy_body_spec (s body rest : jsstring) :
  lazy_body s = Some (body, rest) ->
  (exists nl2 nl3, newline nl2 /\ newline nl3
                   /\ s = body ++ nl2 ++ str "---" ++ nl3 ++ rest)
  /\ (forall k, k < List.length body -> closing_fence (skipn k s) = None).
Proof.
  revert body rest; induction s as [|c s IH]; intros body rest.
  - simpl. discriminate.
  - cbn [lazy_body]. destruct (closing_fence (c :: s)) as [r|] eqn:E.
    + intros H. injection H as <- <-. split.
      * apply closing_fence_spec in E. exact E.
      * simpl. intros k Hk. lia.
    + destruct (lazy_body s) as [[b r]|] eqn:El; [|discriminate].
      intros H. injection H as <- <-.
      destruct (IH b r eq_refl) as [(nl2 & nl3 & H2 & H3 & ->) Hshort].
      split.
      * exists nl2, nl3. repeat split; assumption.
      * intros [|k] Hk; [exact E|]. simpl. apply Hshort. simpl in Hk. lia.
Qed.

(* ================================================================== *)
(** ** [parseFrontmatter]: the line loop *)

Lemma startsWith_four_two (line : jsstring) :
  startsWith (str "    ") line = true -> startsWith (str "  ") line = true.
Proof.
  destruct line as [|a [|b l]]; simpl; try discriminate.
  - rewrite andb_false_r. discriminate.
  - intros H. apply andb_true_iff in H as [Ha H]. apply andb_true_iff in H as [Hb _].
    now rewrite Ha, Hb.
Qed.

Section FrontmatterInvariant.

Variable Number_isNaN : jsstring -> bool.
Variable JSON_valid : jsstring -> bool.
Variable JSON_own_proto : jsstring -> bool.

Lemma scalar_flat (text : jsstring) : flat_value (scalar Number_isNaN text).
Proof.
  unfold scalar.
  repeat match goal with |- context [if ?c then _ else _] => destruct c end; exact I.
Qed.

Lemma scalar_pdf_field (text : jsstring) : pdf_field_value (scalar Number_isNaN text).
Proof.
  unfold scalar.
  repeat match goal with |- context [if ?c then _ else _] => destruct c end; exact I.
Qed.

Lemma pdf_value_field (text : jsstring) :
  pdf_field_value (pdf_value Number_isNaN JSON_valid text).
Proof.
  unfold pdf_value.
  destruct (_ || _); [destruct (JSON_valid text); exact I|apply scalar_pdf_field].
Qed.

(** An assignment keeps what the invariant says of the other keys. *)
Lemma get_assign_other (o : Obj.t) (k k' : jsstring) (v : jsvalue) :
  k <> k' -> Obj.get (Obj.assign o k v) k' = Obj.get o k'.
Proof.
  intros H. unfold Obj.assign.
  destruct (JS.eqb k (str "__proto__")); [reflexivity|now apply get_set_other].
Qed.

Lemma get_assign_cases (o : Obj.t) (k k' : jsstring) (v : jsvalue) :
  Obj.get (Obj.assign o k v) k' = v \/ Obj.get (Obj.assign o k v) k' = Obj.get o k'.
Proof.
  unfold Obj.assign. destruct (JS.eqb k (str "__proto__")); [now right|].
  destruct (list_eq_dec N.eq_dec k k') as [<-|Hne].
  - left. apply get_set_same.
  - right. now apply get_set_other.
Qed.

Lemma has_assign_proto (o : Obj.t) (k : jsstring) (v : jsvalue) :
  Obj.has (Obj.assign o k v) (str "__proto__") = Obj.has o (str "__proto__").
Proof.
  unfold Obj.assign. destruct (JS.eqb k (str "__proto__")) eqn:E; [reflexivity|].
  now rewrite has_set, E.
Qed.

Lemma get_assign_pdf_cases (fields : Obj.t) (proto : option jsstring)
  (key k : jsstring) (v : jsvalue) :
  Obj.get (fst (assign_pdf JSON_own_proto fields proto key v)) k = v
  \/ Obj.get (fst (assign_pdf JSON_own_proto fields proto key v)) k = Obj.get fields k.
Proof.
  assert (Hset : Obj.get (Obj.set fields key v) k = v
                 \/ Obj.get (Obj.set fields key v) k = Obj.get fields k).
  { destruct (list_eq_dec N.eq_dec key k) as [<-|Hne].
    - left. apply get_set_same.
    - right. now apply get_set_other. }
  unfold assign_pdf. destruct (negb _); [exact Hset|].
  destruct (_ || _); [exact Hset|]. destruct v; now right.
Qed.

(** A line keeps the invariant and raises no [TypeError]. *)
Lemma frontmatter_line_inv (st : Frontmatter) (line : jsstring) :
  frontmatter_inv st ->
  match frontmatter_line Number_isNaN JSON_valid JSON_own_proto st line with
  | Parsed st' => frontmatter_inv st'
  | Raises => False
  end.
Proof.
  intros (Hflat & Hpdf & Harr & Hown). unfold frontmatter_line.
  set (c := fm_config st) in *.
  set (trimmed := trim line).
  destruct (negb (truthy trimmed) || startsWith (str "#") trimmed);
    [repeat split; assumption|].
  destruct (startsWith (str "- ") trimmed).
  { (* array item *)
    destruct (truthy (currentKey st) && isArray st) eqn:Ec; [|repeat split; assumption].
    apply andb_true_iff in Ec as [_ Ea]. specialize (Harr Ea).
    set (ck := currentKey st) in *.
    set (v := trim (slice trimmed 2 (List.length trimmed))).
    destruct (JS.eqb ck (str "__proto__")) eqn:Eproto;
      [repeat split; try assumption; intros _; exact Harr|].
    assert (Hitems : exists items,
               Obj.get (if JSLib.isArray (Obj.get c ck) then c
                        else Obj.set c ck (VArr [])) ck = VArr items
               /\ Forall (fun i => exists s, i = VStr s) items).
    { destruct (Obj.get c ck) as [| | | | |items|] eqn:Eg; simpl;
        try (rewrite get_set_same; exists []; split; [reflexivity|constructor]).
      exists items. split; [exact Eg|].
      specialize (Hflat ck Harr). rewrite Eg in Hflat. exact Hflat. }
    destruct Hitems as (items & -> & Hit).
    assert (Hp : Obj.get (Obj.set (if JSLib.isArray (Obj.get c ck) then c
                                   else Obj.set c ck (VArr [])) ck
                            (VArr (items ++ [VStr v]))) (str "pdf_options")
                 = Obj.get c (str "pdf_options")).
    { rewrite get_set_other by exact Harr.
      destruct (JSLib.isArray (Obj.get c ck)); [reflexivity|].
      now rewrite get_set_other by exact Harr. }
    split; [|split; [|split]]; cbn [fm_config currentKey isArray inPdfOptions].
    - intros k Hk. destruct (list_eq_dec N.eq_dec ck k) as [<-|Hne].
      + rewrite get_set_same. simpl. apply Forall_app. split; [exact Hit|].
        repeat constructor. eexists; reflexivity.
      + rewrite get_set_other by exact Hne.
        destruct (JSLib.isArray (Obj.get c ck)); [now apply Hflat|].
        rewrite get_set_other by exact Hne. now apply Hflat.
    - rewrite Hp. exact Hpdf.
    - intros _. exact Harr.
    - rewrite has_set, Eproto. simpl.
      destruct (JSLib.isArray (Obj.get c ck)); [exact Hown|].
      now rewrite has_set, Eproto. }
  destruct (indexOf trimmed (str ":") 0) as [colonIndex|]; [|repeat split; assumption].
  destruct (0 <? colonIndex); [|repeat split; assumption].
  set (key := trim (slice trimmed 0 colonIndex)).
  set (value := trim (slice trimmed (colonIndex + 1) (List.length trimmed))).
  destruct (JS.eqb key (str "pdf_options")) eqn:Ek.
  { (* pdf_options: *)
    split; [|split; [|split]]; cbn [fm_config currentKey isArray inPdfOptions].
    - intros k Hk.
      destruct (truthy_value (Obj.get c (str "pdf_options"))); [now apply Hflat|].
      rewrite get_set_other by congruence. now apply Hflat.
    - destruct (Obj.get c (str "pdf_options")) as [| | | | | |fields] eqn:Eg;
        simpl; try contradiction.
      + rewrite get_set_same. intros k. exact I.
      + rewrite Eg. exact Hpdf.
    - discriminate.
    - destruct (truthy_value (Obj.get c (str "pdf_options"))); [exact Hown|].
      rewrite has_set. simpl. exact Hown. }
  apply eqb_neq in Ek.
  destruct (startsWith (str "  ") line && inPdfOptions st) eqn:E2.
  { (* sub-keys of pdf_options *)
    apply andb_true_iff in E2 as [_ Hin].
    destruct (negb (truthy value)).
    { split; [|split; [|split]]; cbn [fm_config currentKey isArray inPdfOptions];
        [exact Hflat|exact Hpdf|discriminate|exact Hown]. }
    destruct (Obj.get c (str "pdf_options")) as [| | | | | |fields] eqn:Eg;
      try contradiction; [congruence|].
    pose proof (fun k => get_assign_pdf_cases fields (pdf_proto st) key k
                           (pdf_value Number_isNaN JSON_valid value)) as Hcases.
    destruct (assign_pdf JSON_own_proto fields (pdf_proto st) key
                (pdf_value Number_isNaN JSON_valid value)) as [fields' proto'].
    cbn [fst] in Hcases.
    split; [|split; [|split]]; cbn [fm_config currentKey isArray inPdfOptions].
    - intros k Hk. rewrite get_set_other by congruence. now apply Hflat.
    - rewrite get_set_same. intros k.
      destruct (Hcases k) as [-> | ->]; [apply pdf_value_field|apply Hpdf].
    - discriminate.
    - rewrite has_set. simpl. exact Hown. }
  destruct (startsWith (str "    ") line && inPdfOptions st) eqn:E4.
  { (* the margin branch is never taken *)
    apply andb_true_iff in E4 as [H4 Hin]. apply startsWith_four_two in H4.
    rewrite H4, Hin in E2. discriminate. }
  destruct (negb (truthy value)).
  { split; [|split; [|split]]; cbn [fm_config currentKey isArray inPdfOptions].
    - exact Hflat.
    - destruct (Obj.get c (str "pdf_options")); try contradiction; [reflexivity|exact Hpdf].
    - intros _. exact Ek.
    - exact Hown. }
  split; [|split; [|split]]; cbn [fm_config currentKey isArray inPdfOptions].
  - intros k Hk.
    destruct (get_assign_cases c key k (scalar Number_isNaN value)) as [-> | ->];
      [apply scalar_flat|now apply Hflat].
  - rewrite get_assign_other by exact Ek.
    destruct (Obj.get c (str "pdf_options")); try contradiction; [reflexivity|exact Hpdf].
  - discriminate.
  - rewrite has_assign_proto. exact Hown.
Qed.

Lemma frontmatter_lines_inv (lines : list jsstring) :
  forall st, frontmatter_inv st ->
  match frontmatter_lines Number_isNaN JSON_valid JSON_own_proto st lines with
  | Parsed st' => frontmatter_inv st'
  | Raises => False
  end.
Proof.
  induction lines as [|line lines IH]; intros st Hinv; simpl; [exact Hinv|].
  pose proof (frontmatter_line_inv line Hinv) as H.
  destruct (frontmatter_line Number_isNaN JSON_valid JSON_own_proto st line); [now apply IH|exact H].
Qed.

(** The line loop returns, with a state that satisfies the invariant. *)
Lemma frontmatter_lines_returns (lines : list jsstring) :
  exists st, frontmatter_lines Number_isNaN JSON_valid JSON_own_proto
               (Build_Frontmatter [] [] false false None None) lines = Parsed st
             /\ frontmatter_inv st.
Proof.
  assert (Hi : frontmatter_inv (Build_Frontmatter [] [] false false None None)).
  { split; [|split; [|split]]; simpl;
      [intros k _; exact I|reflexivity|discriminate|reflexivity]. }
  pose proof (frontmatter_lines_inv lines Hi) as H.
  destruct (frontmatter_lines _ _ _ _ _) as [st|]; [|contradiction].
  exists st. split; [reflexivity|exact H].
Qed.

Lemma frontmatter_inv_initial : frontmatter_inv (Build_Frontmatter [] [] false false None None).
Proof.
  split; [|split; [|split]]; simpl.
  - intros k _. exact I.
  - reflexivity.
  - discriminate.
  - reflexivity.
Qed.

End FrontmatterInvariant.

(** X10.  [parseFrontmatter] never throws: whatever the frontmatter says,
    the assignments into [pdf_options] find an object there. *)
Theorem parseFrontmatter_never_raises
  (Number_isNaN JSON_valid JSON_own_proto : jsstring -> bool) (markdown : jsstring) :
  parseFrontmatter Number_isNaN JSON_valid JSON_own_proto markdown <> Raises.
Proof.
  unfold parseFrontmatter.
  destruct (frontmatter_match markdown) as [[yaml rest]|]; [|discriminate].
  pose proof (frontmatter_lines_inv Number_isNaN JSON_valid JSON_own_proto
                (split_on LF yaml) frontmatter_inv_initial) as H.
  destruct (frontmatter_lines _ _ _ _ _); [discriminate|contradiction].
Qed.

(** X9.  [parseFrontmatter] returns for every document, also for one
    whose frontmatter has keys named [__proto__], and returns one of two
    things.  Either it finds no frontmatter, and the result is the
    document untouched with an empty configuration; or the document is an
    opening [---] line, the frontmatter text, a closing [---] line and the
    returned content, each line break being LF or CR LF: the content is
    what follows the first closing fence, with nothing lost or added,
    whatever the lines of the frontmatter say.  A document that does not
    begin with [---] has no frontmatter. *)
Theorem parseFrontmatter_split
  (Number_isNaN JSON_valid JSON_own_proto : jsstring -> bool) (markdown : jsstring) :
  (exists content cfg,
      parseFrontmatter Number_isNaN JSON_valid JSON_own_proto markdown
      = Parsed (content, cfg)
      /\ ((content = markdown /\ cfg = [] /\ frontmatter_match markdown = None)
          \/ (exists nl1 yaml nl2 nl3,
                 newline nl1 /\ newline nl2 /\ newline nl3
                 /\ markdown
                    = str "---" ++ nl1 ++ yaml ++ nl2 ++ str "---" ++ nl3 ++ content
                 /\ frontmatter_match markdown = Some (yaml, content)
                 /\ forall k, k < List.length yaml ->
                      closing_fence (skipn k (yaml ++ nl2 ++ str "---" ++ nl3 ++ content))
                      = None)))
  /\ (startsWith (str "---") markdown = false ->
      parseFrontmatter Number_isNaN JSON_valid JSON_own_proto markdown
      = Parsed (markdown, [])).
Proof.
  split.
  - unfold parseFrontmatter.
    destruct (frontmatter_match markdown) as [[yaml rest]|] eqn:Em.
    + destruct (frontmatter_lines_returns Number_isNaN JSON_valid JSON_own_proto
                  (split_on LF yaml)) as (st & -> & _).
      exists rest, (fm_config st). split; [reflexivity|]. right.
      pose proof Em as Em0.
      unfold frontmatter_match in Em.
      destruct (startsWith (str "---") markdown) eqn:Es; [|discriminate].
      destruct (eat_newline (skipn 3 markdown)) as [r1|] eqn:E1; [|discriminate].
      apply startsWith_app in Es. change (List.length (str "---")) with 3 in Es.
      apply eat_newline_spec in E1 as (nl1 & Hn1 & E1).
      apply lazy_body_spec in Em as [(nl2 & nl3 & Hn2 & Hn3 & E2) Hshort].
      exists nl1, yaml, nl2, nl3. repeat split; try assumption.
      * rewrite Es, E1, E2. reflexivity.
      * intros k Hk. rewrite <- E2. now apply Hshort.
    + exists markdown, []. split; [reflexivity|]. left. auto.
  - intros Hs. unfold parseFrontmatter, frontmatter_match. now rewrite Hs.
Qed.

Lemma parseFrontmatter_split_witness :
  parseFrontmatter (fun _ => true) (fun _ => true) (fun _ => false)
    (str "---" ++ [CR; LF] ++ str "title: x" ++ [LF] ++ str "---" ++ [LF] ++ str "# Hi")
  = Parsed (str "# Hi", [(str "title", VStr (str "x"))])
  /\ parseFrontmatter (fun _ => true) (fun _ => true) (fun _ => false)
       (str "---" ++ [LF] ++ str "__proto__: x" ++ [LF] ++ str "title: y" ++ [LF]
          ++ str "---" ++ [LF] ++ str "z")
     = Parsed (str "z", [(str "title", VStr (str "y"))])
  /\ parseFrontmatter (fun _ => true) (fun _ => true) (fun _ => false) (str "# Hi")
     = Parsed (str "# Hi", []).
Proof.
  split; [reflexivity|]. split; [reflexivity|].
  apply (proj2 (parseFrontmatter_split (fun _ => true) (fun _ => true) (fun _ => false)
                  (str "# Hi"))).
  reflexivity.
Defined.

(** X11.  The configuration [parseFrontmatter] returns is flat, for every
    document.  Every top-level value other than [pdf_options] is a boolean,
    a number, a string or an array of strings, never an object: nested
    keys such as those of [markdown_options] or the entries of [script]
    are not built.  [pdf_options] is absent or an object whose fields are
    booleans, numbers, strings or inline JSON: indented lines below a
    [margin:] line are stored as fields of [pdf_options] itself, and no
    [margin] object is built from them.  A key [__proto__] at the top
    level adds no property to the configuration. *)
Theorem parseFrontmatter_flat
  (Number_isNaN JSON_valid JSON_own_proto : jsstring -> bool) (markdown : jsstring) :
  exists content cfg,
    parseFrontmatter Number_isNaN JSON_valid JSON_own_proto markdown
    = Parsed (content, cfg)
    /\ (forall k, k <> str "pdf_options" -> flat_value (Obj.get cfg k))
    /\ match Obj.get cfg (str "pdf_options") with
       | VUndefined => True
       | VObj fields => forall k, pdf_field_value (Obj.get fields k)
       | _ => False
       end
    /\ Obj.has cfg (str "__proto__") = false.
Proof.
  unfold parseFrontmatter.
  destruct (frontmatter_match markdown) as [[yaml rest]|].
  - destruct (frontmatter_lines_returns Number_isNaN JSON_valid JSON_own_proto
                (split_on LF yaml)) as (st & -> & Hflat & Hpdf & _ & Hown).
    exists rest, (fm_config st). split; [reflexivity|].
    split; [exact Hflat|]. split; [|exact Hown].
    destruct (Obj.get (fm_config st) (str "pdf_options")); try contradiction;
      [exact I|exact Hpdf].
  - exists markdown, []. split; [reflexivity|].
    split; [intros; exact I|]. split; [exact I|reflexivity].
Qed.

Lemma parseFrontmatter_flat_witness :
  exists content cfg,
    parseFrontmatter (fun _ => true) (fun _ => true) (fun _ => false)
      (str "---" ++ [LF] ++ str "pdf_options:" ++ [LF] ++ str "  margin:" ++ [LF]
         ++ str "    top: 2cm" ++ [LF] ++ str "markdown_options:" ++ [LF]
         ++ str "  html: true" ++ [LF] ++ str "---" ++ [LF] ++ str "text")
    = Parsed (content, cfg)
    /\ flat_value (Obj.get cfg (str "markdown_options")).
Proof.
  destruct (parseFrontmatter_flat (fun _ => true) (fun _ => true) (fun _ => false)
              (str "---" ++ [LF] ++ str "pdf_options:" ++ [LF] ++ str "  margin:" ++ [LF]
                 ++ str "    top: 2cm" ++ [LF] ++ str "markdown_options:" ++ [LF]
                 ++ str "  html: true" ++ [LF] ++ str "---" ++ [LF] ++ str "text"))
    as (content & cfg & H & Hflat & _).
  exists content, cfg. split; [exact H|]. apply Hflat. discriminate.
Defined.

(* ================================================================== *)
(** ** More on [escapeHtml] *)

Lemma escape_unit_plain (c : code_unit) : plain_unit c -> escape_unit c = [c].
Proof.
  intros (H1 & H2 & H3 & H4). unfold escape_unit.
  apply N.eqb_neq in H1, H2, H3, H4. now rewrite H1, H2, H3, H4.
Qed.

Lemma escape_unit_special (c : code_unit) :
  ~ plain_unit c -> exists tail, escape_unit c = AMP :: tail /\ 3 <= List.length tail.
Proof.
  intros H. unfold escape_unit.
  destruct (N.eqb_spec c AMP); [eexists; split; [reflexivity|simpl; lia]|].
  destruct (N.eqb_spec c LT); [eexists; split; [reflexivity|simpl; lia]|].
  destruct (N.eqb_spec c GT); [eexists; split; [reflexivity|simpl; lia]|].
  destruct (N.eqb_spec c QUOT); [eexists; split; [reflexivity|simpl; lia]|].
  exfalso. apply H. repeat split; assumption.
Qed.

Lemma plain_unit_dec (c : code_unit) : {plain_unit c} + {~ plain_unit c}.
Proof.
  unfold plain_unit.
  destruct (N.eq_dec c AMP); [right; tauto|].
  destruct (N.eq_dec c LT); [right; tauto|].
  destruct (N.eq_dec c GT); [right; tauto|].
  destruct (N.eq_dec c QUOT); [right; tauto|].
  left. tauto.
Qed.

Lemma escapeHtml_length (s : jsstring) : List.length s <= List.length (escapeHtml s).
Proof.
  induction s as [|c s IH]; [simpl; lia|].
  rewrite escapeHtml_cons, length_app. simpl.
  destruct (plain_unit_dec c) as [Hp|Hn].
  - rewrite escape_unit_plain by exact Hp. simpl. lia.
  - apply escape_unit_special in Hn as (tail & -> & Hl). simpl. lia.
Qed.

(** X12.  [escapeHtml] leaves a text unchanged exactly when the text has
    none of the four characters [&], [<], [>] and the double quote in
    it; every other character, the single quote included, passes through.
    Escaping never shortens a text. *)
Theorem escapeHtml_identity (s : jsstring) :
  (escapeHtml s = s <-> Forall plain_unit s)
  /\ List.length s <= List.length (escapeHtml s).
Proof.
  split; [|apply escapeHtml_length].
  induction s as [|c s IH]; [split; [constructor|reflexivity]|].
  rewrite escapeHtml_cons. split.
  - intros H. destruct (plain_unit_dec c) as [Hp|Hn].
    + rewrite escape_unit_plain in H by exact Hp. injection H as H.
      constructor; [exact Hp|now apply IH].
    + exfalso. apply escape_unit_special in Hn as (tail & Ht & Hl).
      rewrite Ht in H. injection H as _ H.
      pose proof (escapeHtml_length s) as Hlen.
      apply (f_equal (@List.length code_unit)) in H. rewrite length_app in H. lia.
  - intros H. inversion H as [|? ? Hp Hs]; subst.
    rewrite escape_unit_plain by exact Hp. simpl. f_equal. now apply IH.
Qed.

Lemma escapeHtml_identity_witness :
  escapeHtml (str "it's plain") = str "it's plain".
Proof.
  apply (proj1 (escapeHtml_identity (str "it's plain"))).
  repeat constructor; discriminate.
Defined.

(** X13.  [escapeHtml] works one character at a time: the escape of a
    concatenation is the concatenation of the escapes.  It loses nothing:
    two texts with the same escape are the same text. *)
Theorem escapeHtml_compositional :
  (forall a b, escapeHtml (a ++ b) = escapeHtml a ++ escapeHtml b)
  /\ (forall a b, escapeHtml a = escapeHtml b -> a = b).
Proof.
  split; [exact escapeHtml_app|].
  intros a b H. rewrite <- (unescape_escape a), <- (unescape_escape b). now rewrite H.
Qed.

(* ================================================================== *)
(** ** More on the math rules *)

Lemma scan_closing_before (src : jsstring) (n e0 k : nat) :
  e0 <= k < scan_closing src e0 n -> closes src k = false.
Proof.
  revert e0; induction n as [|n IH]; intros e0; simpl; [lia|].
  destruct (closes src e0) eqn:E; [lia|].
  intros Hk. destruct (Nat.eq_dec e0 k) as [<-|Hne]; [exact E|].
  apply (IH (S e0)). lia.
Qed.

(** X14.  What a match of the inline rule outside silent mode produces.
    The pending text, when there is some, is flushed as a text token, and
    then exactly one [math_inline] token follows, whose content is the
    text strictly between the opening [$] and the closing one, untrimmed.
    The rule starts at a [$], and the closing delimiter, at index [e], is
    the nearest later [$] not preceded by a backslash: index [e] holds such
    a [$] and no index between the two delimiters does.  The content is
    not blank, and the cursor ends just after the closing delimiter,
    within the inline content. *)
Theorem inline_match_token (state st' : StateInline.t) :
  inlineMathRule state false = (true, st') ->
  exists e,
    StateInline.pos state < e < StateInline.posMax state
    /\ charCodeAt (StateInline.src state) (StateInline.pos state) = Some DOLLAR
    /\ closes (StateInline.src state) e = true
    /\ charCodeAt (StateInline.src state) e = Some DOLLAR
    /\ charCodeAt (StateInline.src state) (e - 1) <> Some BACKSLASH
    /\ StateInline.pos st' = e + 1
    /\ StateInline.pos st' <= StateInline.posMax st'
    /\ (forall k, StateInline.pos state < k < e -> closes (StateInline.src state) k = false)
    /\ trim (slice (StateInline.src state) (StateInline.pos state + 1) e) <> []
    /\ StateInline.pending st' = []
    /\ exists token,
         Token.type token = "math_inline"%string
         /\ Token.content token
            = slice (StateInline.src state) (StateInline.pos state + 1) e
         /\ StateInline.tokens st'
            = StateInline.tokens state
              ++ (if truthy (StateInline.pending state)
                  then [Token.set_level (StateInline.pendingLevel state)
                          (Token.set_content (StateInline.pending state)
                             (Token.new "text" EmptyString 0%Z))]
                  else [])
              ++ [token].
Proof.
  intros H. pose proof (inlineMathRule_match _ _ H) as (Hd & Hr & Hc & Ht & ->).
  set (e := scan_closing _ _ _) in *.
  exists e. split; [exact Hr|]. split; [exact Hd|]. split; [exact Hc|].
  split; [apply closes_spec, Hc|]. split; [apply closes_spec, Hc|].
  split; [reflexivity|].
  split; [unfold StateInline.push; destruct (truthy _); simpl; lia|].
  split.
  { intros k Hk. apply (@scan_closing_before (StateInline.src state)
                          (StateInline.posMax state - (StateInline.pos state + 1))
                          (StateInline.pos state + 1)).
    fold e. lia. }
  split; [exact Ht|].
  unfold StateInline.push, StateInline.pushPending.
  destruct (StateInline.pending state) as [|c p] eqn:Ep; simpl.
  - rewrite Ep. split; [reflexivity|].
    eexists. split; [|split]; [| |reflexivity]; reflexivity.
  - split; [reflexivity|].
    eexists. split; [|split]; [| |rewrite <- app_assoc; reflexivity]; reflexivity.
Qed.

Lemma inline_match_token_witness :
  exists st', inlineMathRule (StateInline.new (str "$5 and $10")) false = (true, st')
              /\ StateInline.pos st' <= StateInline.posMax st'
              /\ List.map Token.content (StateInline.tokens st') = [str "5 and "].
Proof.
  destruct (inlineMathRule (StateInline.new (str "$5 and $10")) false) as [ok st'] eqn:E.
  assert (Hok : ok = true) by (injection E as <- _; reflexivity).
  subst ok. exists st'. split; [reflexivity|].
  destruct (@inline_match_token _ _ E) as (e & _ & _ & _ & _ & _ & _ & Hp & _).
  split; [exact Hp|].
  injection E as <-. reflexivity.
Defined.

(** X15.  Progress of the block rule.  When it matches outside silent mode
    on a range [startLine < endLine], it moves [state.line] strictly
    forward and not beyond [endLine], appends exactly one [math_block]
    token whose [map] is the range from [startLine] to the new line, and
    changes nothing else of the state. *)
Theorem block_match_progress (state st' : StateBlock.t) (startLine endLine : nat) :
  startLine < endLine ->
  blockMathRule state startLine endLine false = (true, st') ->
  startLine < StateBlock.line st' <= endLine
  /\ (exists token,
        StateBlock.tokens st' = StateBlock.tokens state ++ [token]
        /\ Token.type token = "math_block"%string
        /\ Token.tag token = "div"%string
        /\ Token.block token = true
        /\ Token.map token = Some (startLine, StateBlock.line st'))
  /\ StateBlock.src st' = StateBlock.src state
  /\ StateBlock.bMarks st' = StateBlock.bMarks state
  /\ StateBlock.eMarks st' = StateBlock.eMarks state
  /\ StateBlock.tShift st' = StateBlock.tShift state
  /\ StateBlock.level st' = StateBlock.level state.
Proof.
  intros Hlt. block_cases; intros H; try discriminate; try congruence;
    injection H as <-; simpl.
  all: try match goal with
           | H : find_closing_line _ _ _ = Some _ |- _ =>
             apply find_closing_line_some in H; destruct H as [Hrange _]
           end.
  all: (split; [lia|]).
  all: (split; [eexists; repeat split|repeat split]).
Qed.

Lemma block_match_progress_witness :
  let state := StateBlock.new (str "$$" ++ nl ++ str "a" ++ nl ++ str "$$" ++ nl ++ str "b") in
  exists st', blockMathRule state 0 4 false = (true, st')
              /\ 0 < StateBlock.line st' <= 4
              /\ StateBlock.line st' = 3.
Proof.
  intros state.
  destruct (blockMathRule state 0 4 false) as [ok st'] eqn:E.
  assert (Hok : ok = true) by (injection E as <- _; reflexivity).
  subst ok. exists st'. split; [reflexivity|].
  assert (Hlt : 0 < 4) by lia.
  destruct (@block_match_progress state st' 0 4 Hlt E) as (Hline & _).
  split; [exact Hline|].
  injection E as <-. reflexivity.
Defined.

(** X16.  Silent mode is an exact lookahead for both rules: a rule matches
    in silent mode exactly when it matches outside it, and the inline
    rule leaves the cursor at the same place in both modes. *)
Theorem lookahead_agrees :
  (forall (state : StateBlock.t) (startLine endLine : nat),
      fst (blockMathRule state startLine endLine true)
      = fst (blockMathRule state startLine endLine false))
  /\ (forall (state : StateInline.t),
         fst (inlineMathRule state true) = fst (inlineMathRule state false)
         /\ StateInline.pos (snd (inlineMathRule state true))
            = StateInline.pos (snd (inlineMathRule state false))).
Proof.
  split.
  - intros state startLine endLine. symmetry. apply blockMathRule_detect.
  - intros state. unfold inlineMathRule.
    repeat match goal with
           | |- context [if ?c then _ else _] => destruct c
           end; split; reflexivity.
Qed.

Lemma slice_In (s : jsstring) (a b : nat) (c : code_unit) :
  In c (slice s a b) -> In c s.
Proof.
  unfold slice. intros H. apply In_nth_error in H as [i Hi].
  rewrite nth_error_firstn in Hi. destruct (i <? b - a); [|discriminate].
  rewrite nth_error_skipn in Hi. eapply nth_error_In. exact Hi.
Qed.

(** X17.  A source without a dollar sign is left alone by the math
    grammar: at every line and every cursor position, in both modes, the
    block rule and the inline rule decline and return the state they were
    given. *)
Theorem no_dollar_no_math :
  (forall (state : StateBlock.t) (startLine endLine : nat) (silent : bool),
      ~ In DOLLAR (StateBlock.src state) ->
      blockMathRule state startLine endLine silent = (false, state))
  /\ (forall (state : StateInline.t) (silent : bool),
         ~ In DOLLAR (StateInline.src state) ->
         inlineMathRule state silent = (false, state)).
Proof.
  split.
  - intros state startLine endLine silent Hno. unfold blockMathRule.
    destruct (_ <? _); [reflexivity|].
    destruct (JS.eqb _ (str "$$")) eqn:E; [|reflexivity].
    exfalso. apply eqb_eq in E. apply Hno.
    eapply slice_In. rewrite E. now left.
  - intros state silent Hno. unfold inlineMathRule.
    destruct (code_is (charCodeAt (StateInline.src state) (StateInline.pos state)) DOLLAR)
      eqn:E; [|reflexivity].
    exfalso. apply code_is_true in E. apply Hno.
    eapply nth_error_In. exact E.
Qed.

Lemma no_dollar_no_math_witness :
  inlineMathRule (StateInline.set_pos 4 (StateInline.new (str "plain text"))) false
  = (false, StateInline.set_pos 4 (StateInline.new (str "plain text"))).
Proof.
  apply (proj2 no_dollar_no_math).
  simpl. intros H.
  repeat (destruct H as [H|H]; [discriminate|]). exact H.
Defined.

Lemma find_closing_line_first (state : StateBlock.t) (n first ln : nat) :
  find_closing_line state first n = Some ln ->
  forall k, first <= k < ln -> trim (line_text state k) <> str "$$".
Proof.
  revert first; induction n as [|n IH]; intros first; simpl; [discriminate|].
  destruct (JS.eqb _ _) eqn:E.
  - intros H. injection H as <-. intros k Hk. lia.
  - intros H k Hk. destruct (Nat.eq_dec first k) as [<-|Hne].
    + now apply eqb_neq.
    + apply (IH (S first)); [exact H|lia].
Qed.

(** Without a second [$$] on the opening line the rule is its multi-line
    branch. *)
Lemma blockMathRule_no_same_line (state : StateBlock.t) (startLine endLine : nat)
  (silent : bool) :
  let src := StateBlock.src state in
  let startPos := nth startLine (StateBlock.bMarks state) 0
                  + nth startLine (StateBlock.tShift state) 0 in
  let maxPos := nth startLine (StateBlock.eMarks state) 0 in
  (forall p, startPos + 2 <= p < maxPos -> slice src p (p + 2) <> str "$$") ->
  fst (blockMathRule state startLine endLine silent) = true ->
  blockMathRule state startLine endLine silent
  = blockMath_multi_line state startLine endLine silent.
Proof.
  intros src startPos maxPos Hline. unfold blockMathRule. fold src startPos maxPos.
  destruct (maxPos <? startPos + 2); [discriminate|].
  destruct (negb _); [discriminate|].
  destruct (indexOf src (str "$$") (startPos + 2)) as [e|] eqn:Hidx; [|reflexivity].
  destruct (Nat.ltb_spec e maxPos) as [Hlt|_]; [|reflexivity].
  exfalso. apply indexOf_sound in Hidx as [Hmin Hocc].
  change (List.length (str "$$")) with 2 in Hocc.
  apply (Hline e); [|exact Hocc].
  split; [|exact Hlt].
  destruct (Nat.le_gt_cases (startPos + 2) e) as [Hle|Hgt]; [exact Hle|].
  assert (Hlen : List.length src <= e) by lia.
  unfold slice in Hocc. rewrite skipn_all2 in Hocc by exact Hlen.
  rewrite firstn_nil in Hocc. discriminate.
Qed.

(** X18.  The extent of multi-line block math.  When the opening line has
    no second [$$] and the rule matches, the block ends at the first later
    line whose trimmed text is [$$]: that line lies before [endLine], no
    line between the opening line and it is a closing line, the line
    cursor ends just after it, and the content of the token is the
    trimmed text of the lines strictly between the two. *)
Theorem block_multi_line_extent (state st' : StateBlock.t) (startLine endLine : nat) :
  let src := StateBlock.src state in
  let startPos := nth startLine (StateBlock.bMarks state) 0
                  + nth startLine (StateBlock.tShift state) 0 in
  let maxPos := nth startLine (StateBlock.eMarks state) 0 in
  (forall p, startPos + 2 <= p < maxPos -> slice src p (p + 2) <> str "$$") ->
  blockMathRule state startLine endLine false = (true, st') ->
  exists closing,
    startLine < closing < endLine
    /\ trim (line_text state closing) = str "$$"
    /\ (forall k, startLine < k < closing -> trim (line_text state k) <> str "$$")
    /\ StateBlock.line st' = closing + 1
    /\ exists token,
         StateBlock.tokens st' = StateBlock.tokens state ++ [token]
         /\ Token.content token
            = trim (StateBlock.getLines state (startLine + 1) closing
                      (nth startLine (StateBlock.tShift state) 0) false).
Proof.
  intros src startPos maxPos Hline H.
  rewrite (@blockMathRule_no_same_line state startLine endLine false Hline) in H
    by (now rewrite H).
  unfold blockMath_multi_line in H.
  destruct (find_closing_line state (startLine + 1) (endLine - (startLine + 1)))
    as [closing|] eqn:Ef; [|discriminate].
  injection H as <-.
  pose proof (find_closing_line_some _ _ _ Ef) as [Hrange Hclose].
  pose proof (fun k => @find_closing_line_first _ _ _ _ Ef k) as Hfirst.
  exists closing. split; [lia|]. split; [exact Hclose|].
  split; [intros k Hk; apply Hfirst; lia|].
  split; [reflexivity|].
  eexists. split; reflexivity.
Qed.

Lemma block_multi_line_extent_witness :
  let state := StateBlock.new (str "$$" ++ nl ++ str "a" ++ nl ++ str "$$" ++ nl ++ str "$$") in
  exists st', blockMathRule state 0 4 false = (true, st') /\ StateBlock.line st' = 3.
Proof.
  intros state.
  destruct (blockMathRule state 0 4 false) as [ok st'] eqn:E.
  assert (Hok : ok = true) by (injection E as <- _; reflexivity).
  subst ok. exists st'. split; [reflexivity|].
  destruct (@block_multi_line_extent state st' 0 4) as (closing & Hr & Hc & Hf & Hl & _).
  - simpl. intros p Hp. lia.
  - exact E.
  - rewrite Hl. clear Hl.
    destruct closing as [|[|[|closing]]]; try lia.
    + exfalso. revert Hc. discriminate.
    + exfalso. apply (Hf 2); [lia|reflexivity].
Defined.

Lemma indexOf_aux_after (pat a rest : jsstring) (k : nat) :
  (forall c, In c a -> ~ In c pat) -> pat <> [] ->
  indexOf_aux pat (a ++ pat ++ rest) k = Some (k + List.length a).
Proof.
  intros Hno Hne. revert k. induction a as [|c a IH]; intros k.
  - simpl app. assert (Hs : startsWith pat (pat ++ rest) = true).
    { clear. induction pat as [|p pat IH]; [reflexivity|].
      simpl. now rewrite N.eqb_refl, IH. }
    destruct (pat ++ rest) eqn:E; simpl; rewrite Hs; f_equal; lia.
  - cbn [app indexOf_aux].
    assert (Hs : startsWith pat (c :: a ++ pat ++ rest) = false).
    { destruct pat as [|p pat]; [contradiction|]. simpl.
      destruct (N.eqb_spec p c) as [->|_]; [|reflexivity].
      exfalso. apply (Hno c); now left. }
    rewrite Hs, IH by (intros x Hx; apply Hno; now right).
    simpl. f_equal. lia.
Qed.

Lemma slice_middle (pre x rest : jsstring) :
  slice (pre ++ x ++ rest) (List.length pre) (List.length pre + List.length x) = x.
Proof.
  unfold slice. rewrite skipn_app, skipn_all, Nat.sub_diag. simpl.
  replace (List.length pre + List.length x - List.length pre) with (List.length x) by lia.
  rewrite firstn_app, firstn_all, Nat.sub_diag. simpl. apply app_nil_r.
Qed.

(** A text without a dollar sign has no [$$] of its own. *)
Lemma no_dollar_closes_at_end (m : jsstring) : ~ In DOLLAR m -> closes_at_end m.
Proof.
  intros Hno k Hk E. apply Hno.
  assert (H : nth_error (m ++ str "$$") k = Some DOLLAR).
  { unfold slice in E. replace (k + 2 - k) with 2 in E by lia.
    rewrite <- (Nat.add_0_r k), <- nth_error_skipn.
    destruct (skipn k (m ++ str "$$")) as [|c s]; [discriminate|].
    simpl in E. injection E as -> _. reflexivity. }
  rewrite nth_error_app1 in H by exact Hk. eapply nth_error_In. exact H.
Qed.

Lemma closes_at_end_tail (c : code_unit) (m : jsstring) :
  closes_at_end (c :: m) -> closes_at_end m.
Proof.
  intros H k Hk E. apply (H (S k)); [simpl; lia|].
  unfold slice in *. simpl. exact E.
Qed.

(** The first [$$] of [m], [$$] and any further text is the one after [m]
    when [m] has none of its own. *)
Lemma indexOf_aux_at_end (m rest : jsstring) (k : nat) :
  closes_at_end m ->
  indexOf_aux (str "$$") (m ++ str "$$" ++ rest) k = Some (k + List.length m).
Proof.
  revert k. induction m as [|c m IH]; intros k Hm.
  - simpl. f_equal. lia.
  - assert (Hs : startsWith (str "$$") ((c :: m) ++ str "$$" ++ rest) = false).
    { cbn [app startsWith str List.map list_ascii_of_string].
      destruct (N.eqb_spec (N_of_ascii "$") c) as [<-|Hc]; [|reflexivity].
      destruct m as [|c' m].
      - exfalso. apply (Hm 0); [simpl; lia|reflexivity].
      - cbn [app startsWith].
        destruct (N.eqb_spec (N_of_ascii "$") c') as [<-|Hc']; [|reflexivity].
        exfalso. apply (Hm 0); [simpl; lia|reflexivity]. }
    cbn [app indexOf_aux] in Hs |- *. rewrite Hs.
    rewrite IH by (eapply closes_at_end_tail; exact Hm).
    simpl. f_equal. lia.
Qed.

(** The single-line branch of the block rule: on a line that reads [$$],
    a text [a] with no [$$] of its own, [$$] and then [t], the rule outside
    silent mode matches and the state it returns is the given one with a
    [math_block] token of content [trim a] appended and the line cursor
    after the line. *)
Lemma blockMathRule_single_line
  (state : StateBlock.t) (startLine endLine : nat) (pre a t post : jsstring) :
  StateBlock.src state = pre ++ str "$$" ++ a ++ str "$$" ++ t ++ post ->
  nth startLine (StateBlock.bMarks state) 0 + nth startLine (StateBlock.tShift state) 0
  = List.length pre ->
  nth startLine (StateBlock.eMarks state) 0
  = List.length pre + 4 + List.length a + List.length t ->
  closes_at_end a ->
  blockMathRule state startLine endLine false
  = (true,
     StateBlock.set_line (startLine + 1)
       (StateBlock.push state "math_block" "div"
          (fun token => Token.set_map (startLine, startLine + 1)
                          (Token.set_content (trim a) token)))).
Proof.
  intros Hsrc Hstart Hmax Hno. unfold blockMathRule.
  rewrite Hstart, Hmax, Hsrc.
  destruct (Nat.ltb_spec (List.length pre + 4 + List.length a + List.length t)
              (List.length pre + 2)) as [Hlt|_]; [lia|].
  assert (Hopen : slice (pre ++ str "$$" ++ a ++ str "$$" ++ t ++ post)
                    (List.length pre) (List.length pre + 2) = str "$$").
  { apply (slice_middle pre (str "$$")). }
  rewrite Hopen, eqb_refl. cbn [negb].
  assert (Hidx : indexOf (pre ++ str "$$" ++ a ++ str "$$" ++ t ++ post) (str "$$")
                   (List.length pre + 2)
                 = Some (List.length pre + 2 + List.length a)).
  { unfold indexOf.
    assert (Hlen : List.length pre + 2
                   <= List.length (pre ++ str "$$" ++ a ++ str "$$" ++ t ++ post)).
    { rewrite !length_app. simpl. lia. }
    rewrite Nat.min_l by exact Hlen.
    assert (Hsk : skipn (List.length pre + 2)
                    (pre ++ str "$$" ++ a ++ str "$$" ++ t ++ post)
                  = a ++ str "$$" ++ (t ++ post)).
    { rewrite skipn_app, skipn_all2 by lia.
      replace (List.length pre + 2 - List.length pre) with 2 by lia. reflexivity. }
    rewrite Hsk. now apply indexOf_aux_at_end. }
  rewrite Hidx.
  destruct (Nat.ltb_spec (List.length pre + 2 + List.length a)
              (List.length pre + 4 + List.length a + List.length t)) as [_|Hge]; [|lia].
  assert (Hin : slice (pre ++ str "$$" ++ a ++ str "$$" ++ t ++ post)
                  (List.length pre + 2) (List.length pre + 2 + List.length a) = a).
  { replace (pre ++ str "$$" ++ a ++ str "$$" ++ t ++ post)
      with ((pre ++ str "$$") ++ a ++ (str "$$" ++ t ++ post))
      by (now rewrite <- app_assoc).
    replace (List.length pre + 2) with (List.length (pre ++ str "$$"))
      by (rewrite length_app; reflexivity).
    apply slice_middle. }
  rewrite Hin. reflexivity.
Qed.

(** X19.  Single-line block math drops what follows the closing [$$].  On
    a line that reads [$$], a text without a dollar sign, [$$] and any
    further text, the rule outside silent mode emits one [math_block]
    token whose content is the trimmed text between the delimiters and
    consumes the whole line: the text after the closing [$$] reaches no
    token. *)
Theorem single_line_trailing_text_dropped
  (state : StateBlock.t) (startLine endLine : nat) (pre a t post : jsstring) :
  StateBlock.src state = pre ++ str "$$" ++ a ++ str "$$" ++ t ++ post ->
  nth startLine (StateBlock.bMarks state) 0 + nth startLine (StateBlock.tShift state) 0
  = List.length pre ->
  nth startLine (StateBlock.eMarks state) 0
  = List.length pre + 4 + List.length a + List.length t ->
  ~ In DOLLAR a ->
  blockMathRule state startLine endLine false
  = (true,
     StateBlock.set_line (startLine + 1)
       (StateBlock.push state "math_block" "div"
          (fun token => Token.set_map (startLine, startLine + 1)
                          (Token.set_content (trim a) token)))).
Proof.
  intros Hsrc Hstart Hmax Hno.
  apply (@blockMathRule_single_line state startLine endLine pre a t post);
    try assumption.
  now apply no_dollar_closes_at_end.
Qed.

Lemma single_line_trailing_text_dropped_witness :
  List.map Token.content
    (StateBlock.tokens (snd (run_block (str "$$ x^2 $$ and more text"))))
  = [str "x^2"].
Proof.
  unfold run_block. cbv zeta.
  rewrite (@single_line_trailing_text_dropped
             (StateBlock.new (str "$$ x^2 $$ and more text")) 0
             (StateBlock.lineMax (StateBlock.new (str "$$ x^2 $$ and more text")))
             [] (str " x^2 ") (str " and more text") []).
  - reflexivity.
  - reflexivity.
  - reflexivity.
  - reflexivity.
  - simpl. intros H. repeat (destruct H as [H|H]; [discriminate|]). exact H.
Defined.



(* ================================================================== *)
(** ** [expandGlobs] *)

Lemma lex_ltb_irrefl (a : jsstring) : lex_ltb a a = false.
Proof.
  induction a as [|x a IH]; [reflexivity|]. simpl. now rewrite N.ltb_irrefl.
Qed.

Lemma lex_ltb_trans (a : jsstring) :
  forall b c, lex_ltb a b = true -> lex_ltb b c = true -> lex_ltb a c = true.
Proof.
  induction a as [|x a IH]; intros [|y b] [|z c]; simpl; try discriminate; auto.
  destruct (N.ltb_spec x y), (N.ltb_spec y x), (N.ltb_spec y z), (N.ltb_spec z y),
    (N.ltb_spec x z), (N.ltb_spec z x); try discriminate; try lia; auto.
  apply IH.
Qed.

Lemma lex_ltb_trichotomy (a : jsstring) :
  forall b, lex_ltb a b = false -> lex_ltb b a = false -> a = b.
Proof.
  induction a as [|x a IH]; intros [|y b]; simpl; try discriminate; auto.
  destruct (N.ltb_spec x y), (N.ltb_spec y x); try discriminate; try lia.
  intros H1 H2. assert (x = y) by lia. subst. f_equal. now apply IH.
Qed.

Lemma lex_le_trans (a b c : jsstring) :
  lex_ltb b a = false -> lex_ltb c b = false -> lex_ltb c a = false.
Proof.
  intros Hab Hbc. destruct (lex_ltb c a) eqn:Hca; [|reflexivity].
  destruct (lex_ltb a b) eqn:Hlt.
  - rewrite (lex_ltb_trans _ _ _ Hca Hlt) in Hbc. discriminate.
  - assert (a = b) by (now apply lex_ltb_trichotomy). subst. congruence.
Qed.

Lemma sort_insert_In (x y : jsstring) (l : list jsstring) :
  In y (sort_insert x l) <-> y = x \/ In y l.
Proof.
  induction l as [|z l IH]; simpl; [intuition auto|].
  destruct (lex_ltb z x); simpl; rewrite ?IH; intuition auto.
Qed.

Lemma sort_In (y : jsstring) (l : list jsstring) : In y (sort l) <-> In y l.
Proof.
  induction l as [|x l IH]; simpl; [tauto|].
  rewrite sort_insert_In, IH. intuition auto.
Qed.

Lemma sort_insert_NoDup (x : jsstring) (l : list jsstring) :
  NoDup l -> ~ In x l -> NoDup (sort_insert x l).
Proof.
  induction l as [|z l IH]; simpl; intros Hnd Hnin; [repeat constructor; tauto|].
  inversion Hnd as [|? ? Hz Hl]; subst.
  destruct (lex_ltb z x).
  - constructor; [|apply IH; tauto].
    rewrite sort_insert_In. intros [->|Hin]; tauto.
  - constructor; [simpl; tauto|exact Hnd].
Qed.

Lemma sort_NoDup (l : list jsstring) : NoDup l -> NoDup (sort l).
Proof.
  induction 1 as [|x l Hx Hl IH]; simpl; [constructor|].
  apply sort_insert_NoDup; [exact IH|]. now rewrite sort_In.
Qed.

Lemma sort_insert_ordered (x : jsstring) (l : list jsstring) :
  StronglySorted (fun a b => lex_ltb b a = false) l ->
  StronglySorted (fun a b => lex_ltb b a = false) (sort_insert x l).
Proof.
  induction 1 as [|z l Hs IH Hall]; simpl; [repeat constructor|].
  destruct (lex_ltb z x) eqn:E.
  - constructor; [exact IH|].
    apply Forall_forall. intros y Hy. apply sort_insert_In in Hy as [->|Hy].
    + destruct (lex_ltb x z) eqn:E'; [|reflexivity].
      pose proof (lex_ltb_trans _ _ _ E E') as Hzz.
      rewrite lex_ltb_irrefl in Hzz. discriminate.
    + rewrite Forall_forall in Hall. now apply Hall.
  - constructor; [now constructor|].
    constructor; [exact E|].
    eapply Forall_impl; [|exact Hall]. intros y Hy. simpl in Hy.
    eapply lex_le_trans; eassumption.
Qed.

Lemma sort_ordered (l : list jsstring) :
  StronglySorted (fun a b => lex_ltb b a = false) (sort l).
Proof.
  induction l as [|x l IH]; simpl; [constructor|]. now apply sort_insert_ordered.
Qed.

Lemma strictly_ordered (l : list jsstring) :
  StronglySorted (fun a b => lex_ltb b a = false) l -> NoDup l ->
  StronglySorted (fun a b => lex_ltb a b = true) l.
Proof.
  induction 1 as [|x l Hs IH Hall]; intros Hnd; [constructor|].
  inversion Hnd as [|? ? Hx Hl]; subst.
  constructor; [now apply IH|].
  rewrite Forall_forall in *. intros y Hy.
  destruct (lex_ltb x y) eqn:E; [reflexivity|].
  exfalso. apply Hx. rewrite (lex_ltb_trichotomy _ _ E (Hall y Hy)). exact Hy.
Qed.

Lemma existsb_eqb_In (x : jsstring) (l : list jsstring) :
  existsb (JS.eqb x) l = true <-> In x l.
Proof.
  rewrite existsb_exists. split.
  - intros (y & Hy & E). apply eqb_eq in E. now subst.
  - intros H. exists x. split; [exact H|apply eqb_refl].
Qed.

Lemma dedupe_into_spec (l : list jsstring) :
  forall seen,
    NoDup (dedupe_into seen l)
    /\ forall x, In x (dedupe_into seen l) <-> In x l /\ ~ In x seen.
Proof.
  induction l as [|y l IH]; intros seen; simpl.
  - split; [constructor|]. intros x. tauto.
  - destruct (existsb (JS.eqb y) seen) eqn:E.
    + apply existsb_eqb_In in E. destruct (IH seen) as [Hnd Hin].
      split; [exact Hnd|]. intros x. rewrite Hin.
      split; [tauto|]. intros [[->|Hx] Hs]; tauto.
    + assert (Hy : ~ In y seen).
      { intros H. apply existsb_eqb_In in H. congruence. }
      destruct (IH (y :: seen)) as [Hnd Hin]. split.
      * constructor; [|exact Hnd]. rewrite Hin. simpl. tauto.
      * intros x. simpl. rewrite Hin. simpl.
        destruct (list_eq_dec N.eq_dec y x) as [->|Hne]; tauto.
Qed.

(** X22.  [expandGlobs] returns its files in ascending order of their code
    units, each once, whatever the order and the repetitions on the
    command line.  The files are exactly the patterns without [*], [?] or
    a bracket, kept as they are even when they do not end in [.md], and
    the matches of the other patterns that end in [.md]. *)
Theorem expandGlobs_sorted_set (glob : jsstring -> list jsstring)
  (patterns : list jsstring) :
  StronglySorted (fun a b => lex_ltb a b = true) (expandGlobs glob patterns)
  /\ NoDup (expandGlobs glob patterns)
  /\ (forall f,
        In f (expandGlobs glob patterns) <->
        exists pattern,
          In pattern patterns
          /\ if is_glob pattern
             then In f (glob pattern) /\ endsWith f (str ".md") = true
             else f = pattern).
Proof.
  unfold expandGlobs, dedupe.
  destruct (dedupe_into_spec (allFiles glob patterns) []) as [Hnd Hin].
  split; [|split].
  - apply strictly_ordered; [apply sort_ordered|now apply sort_NoDup].
  - now apply sort_NoDup.
  - intros f. rewrite sort_In, Hin. unfold allFiles. rewrite in_flat_map.
    split.
    + intros [(p & Hp & Hf) _]. exists p. split; [exact Hp|].
      destruct (is_glob p).
      * now apply filter_In in Hf.
      * destruct Hf as [<-|[]]. reflexivity.
    + intros (p & Hp & Hf). split; [|tauto]. exists p. split; [exact Hp|].
      destruct (is_glob p).
      * now apply filter_In.
      * left. now subst.
Qed.

(* ================================================================== *)
(** ** The destination *)

Lemma mergedConfig_mergeConfig (config frontmatterConfig : Obj.t) :
  mergedConfig config frontmatterConfig = mergeConfig config frontmatterConfig.
Proof. reflexivity. Qed.

Lemma finalConfig_ok (config : Obj.t) (outputPath : jsstring) :
  config_ok config -> config_ok (finalConfig config outputPath).
Proof.
  intros [Hwf Hpdf]. unfold finalConfig. split.
  - apply set_wf, spread_wf. constructor.
  - rewrite get_set_other by discriminate.
    rewrite get_spread by exact Hwf.
    destruct (Obj.has config (str "pdf_options")) eqn:E; [exact Hpdf|].
    simpl. exact I.
Qed.

(** X23.  The destination of a conversion started from the command line.
    [convertFile] puts the output path it was given into [dest], and
    [mdToPdf] then lets the frontmatter override the configuration: when
    the frontmatter has a [dest] key the file is written there, and only
    otherwise at the path the command line chose. *)
Theorem frontmatter_dest_overrides
  (config frontmatterConfig : Obj.t) (outputPath : jsstring) :
  config_ok config -> config_ok frontmatterConfig ->
  Obj.get (mergedConfig (finalConfig config outputPath) frontmatterConfig) (str "dest")
  = if Obj.has frontmatterConfig (str "dest")
    then Obj.get frontmatterConfig (str "dest")
    else VStr outputPath.
Proof.
  intros Hc Hf. rewrite mergedConfig_mergeConfig.
  destruct (mergeConfig_lookup (finalConfig_ok outputPath Hc) Hf) as (H & _ & _).
  rewrite H by discriminate.
  destruct (Obj.has frontmatterConfig (str "dest")); [reflexivity|].
  unfold finalConfig. apply get_set_same.
Qed.

Lemma frontmatter_dest_overrides_witness :
  Obj.get (mergedConfig (finalConfig [] (str "/work/a.pdf"))
             [(str "dest", VStr (str "./elsewhere.pdf"))]) (str "dest")
  = VStr (str "./elsewhere.pdf").
Proof.
  rewrite (@frontmatter_dest_overrides [] [(str "dest", VStr (str "./elsewhere.pdf"))]
             (str "/work/a.pdf")).
  - reflexivity.
  - split; [constructor|exact I].
  - split; [repeat constructor; simpl; tauto|exact I].
Defined.

(* ================================================================== *)
(** ** The block rule on blank content and on the two block forms *)


Lemma trimStart_In (s : jsstring) (c : code_unit) : In c (trimStart s) -> In c s.
Proof.
  induction s as [|x s IH]; simpl; [tauto|].
  destruct (is_white x); [intros H; right; now apply IH|tauto].
Qed.

Lemma trim_In (s : jsstring) (c : code_unit) : In c (trim s) -> In c s.
Proof.
  unfold trim, trimEnd. intros H.
  apply in_rev, trimStart_In in H. apply in_rev in H. now apply trimStart_In.
Qed.


(** With no indentation to strip, a line is returned as it is. *)
Lemma getLine_no_indent (st : StateBlock.t) (ln : nat) :
  StateBlock.getLine st ln 0 false
  = slice (StateBlock.src st) (nth ln (StateBlock.bMarks st) 0)
      (nth ln (StateBlock.eMarks st) 0).
Proof.
  unfold StateBlock.getLine. cbv zeta.
  destruct (nth ln (StateBlock.eMarks st) 0 - nth ln (StateBlock.bMarks st) 0) as [|fuel];
    simpl; [reflexivity|].
  rewrite andb_false_r. reflexivity.
Qed.




(** The scan for the closing line stops at the first closing line. *)
Lemma find_closing_line_at (state : StateBlock.t) (n : nat) :
  forall first closing,
    first <= closing < first + n ->
    (forall k, first <= k < closing -> trim (line_text state k) <> str "$$") ->
    trim (line_text state closing) = str "$$" ->
    find_closing_line state first n = Some closing.
Proof.
  induction n as [|n IH]; intros first closing Hr Hno Hc; simpl; [lia|].
  destruct (Nat.eq_dec first closing) as [->|Hne].
  - rewrite Hc, eqb_refl. reflexivity.
  - assert (E : JS.eqb (trim (line_text state first)) (str "$$") = false)
      by (apply eqb_neq, Hno; lia).
    rewrite E. apply IH; [lia| |exact Hc].
    intros k Hk. apply Hno. lia.
Qed.

(** On an opening line the rule goes to its multi-line branch. *)
Lemma blockMathRule_opening_line (state : StateBlock.t) (startLine endLine : nat)
  (silent : bool) :
  opening_line state startLine ->
  blockMathRule state startLine endLine silent
  = blockMath_multi_line state startLine endLine silent.
Proof.
  unfold opening_line, blockMathRule. cbv zeta.
  set (src := StateBlock.src state).
  set (startPos := nth startLine (StateBlock.bMarks state) 0
                   + nth startLine (StateBlock.tShift state) 0).
  set (maxPos := nth startLine (StateBlock.eMarks state) 0).
  intros (Hlen & Hopen & Hline).
  destruct (Nat.ltb_spec maxPos (startPos + 2)) as [Hlt|_]; [lia|].
  rewrite Hopen, eqb_refl. cbn [negb].
  destruct (indexOf src (str "$$") (startPos + 2)) as [e|] eqn:Hidx; [|reflexivity].
  destruct (Nat.ltb_spec e maxPos) as [Hlt|_]; [|reflexivity].
  exfalso. apply indexOf_sound in Hidx as [Hmin Hocc].
  change (List.length (str "$$")) with 2 in Hocc.
  apply (Hline e); [|exact Hocc].
  split; [|exact Hlt].
  destruct (Nat.le_gt_cases (startPos + 2) e) as [Hle|Hgt]; [exact Hle|].
  assert (Hl : List.length src <= e) by lia.
  unfold slice in Hocc. rewrite skipn_all2 in Hocc by exact Hl.
  rewrite firstn_nil in Hocc. discriminate.
Qed.

(** The multi-line branch: from an opening line, with the first closing
    line at [closing], the rule matches and the state it returns is the
    given one with a [math_block] token appended, whose content is the
    trimmed text of the lines in between, and the line cursor after the
    closing line. *)
Lemma blockMathRule_multi_line (state : StateBlock.t) (startLine endLine closing : nat) :
  opening_line state startLine ->
  startLine < closing < endLine ->
  (forall k, startLine < k < closing -> trim (line_text state k) <> str "$$") ->
  trim (line_text state closing) = str "$$" ->
  blockMathRule state startLine endLine false
  = (true,
     StateBlock.set_line (closing + 1)
       (StateBlock.push state "math_block" "div"
          (fun token =>
             Token.set_map (startLine, closing + 1)
               (Token.set_content
                  (trim (StateBlock.getLines state (startLine + 1) closing
                           (nth startLine (StateBlock.tShift state) 0) false))
                  token)))).
Proof.
  intros Hopen Hr Hno Hc.
  rewrite blockMathRule_opening_line by exact Hopen.
  unfold blockMath_multi_line.
  rewrite (@find_closing_line_at state (endLine - (startLine + 1)) (startLine + 1) closing);
    [reflexivity|lia| |exact Hc].
  intros k Hk. apply Hno. lia.
Qed.


(* ================================================================== *)
(** ** Empty math content *)




(* ================================================================== *)
(** ** The line table of the two block forms *)

(** A line of the source and the line feed that ends it.  The indentation
    counted for the line is a run of spaces and tabs at its start. *)
Lemma scan_lines_line (a : jsstring) :
  ~ In LF a ->
  forall rest pos start indent offset found,
  exists indent' offset',
    StateBlock.scan_lines (a ++ LF :: rest) pos start indent offset found
    = (start, pos + List.length a, indent', offset')
      :: StateBlock.scan_lines rest (S (pos + List.length a)) (S (pos + List.length a))
           0 0 false
    /\ (found = true -> indent' = indent)
    /\ indent <= indent'
    /\ blank (firstn (indent' - indent) a).
Proof.
  induction a as [|c a IH]; intros Hno rest pos start indent offset found.
  - exists indent, offset. cbn [app StateBlock.scan_lines List.length].
    change (StateBlock.isSpace LF) with false. rewrite andb_false_r.
    change (N.eqb LF LF) with true. cbv iota. rewrite Nat.add_0_r.
    repeat split; [lia|]. rewrite Nat.sub_diag. constructor.
  - assert (Hc : N.eqb c LF = false) by (apply N.eqb_neq; intros ->; apply Hno; now left).
    assert (Ha : ~ In LF a) by (intros H; apply Hno; now right).
    cbn [app StateBlock.scan_lines List.length].
    replace (pos + S (List.length a)) with (S pos + List.length a) by lia.
    destruct (negb found && StateBlock.isSpace c) eqn:Es.
    + apply andb_true_iff in Es as [Ef Es]. apply negb_true_iff in Ef.
      destruct (IH Ha rest (S pos) start (S indent)
                  (if N.eqb c TAB then offset + (4 - offset mod 4) else S offset) false)
        as (indent' & offset' & E & _ & Hle & Hb).
      exists indent', offset'. split; [exact E|]. split; [congruence|].
      split; [lia|].
      replace (indent' - indent) with (S (indent' - S indent)) by lia.
      cbn [firstn]. constructor; [|exact Hb].
      unfold StateBlock.isSpace in Es. apply orb_true_iff in Es as [Es|Es];
        apply N.eqb_eq in Es; subst c; reflexivity.
    + rewrite Hc.
      destruct (IH Ha rest (S pos) start indent offset true)
        as (indent' & offset' & E & Hi & _ & _).
      specialize (Hi eq_refl). subst indent'.
      exists indent, offset'. rewrite Nat.sub_diag.
      split; [|repeat split; [lia|constructor]].
      destruct (a ++ LF :: rest) as [|x l] eqn:Eq; [destruct a; discriminate|].
      exact E.
Qed.

(** The last line of a source that does not end with a line feed. *)
Lemma scan_lines_last (s : jsstring) :
  s <> [] -> ~ In LF s ->
  forall pos start indent offset,
    StateBlock.scan_lines s pos start indent offset true
    = [(start, pos + List.length s, indent, offset)].
Proof.
  induction s as [|c s IH]; intros Hne Hno pos start indent offset; [contradiction|].
  assert (Hc : N.eqb c LF = false) by (apply N.eqb_neq; intros ->; apply Hno; now left).
  cbn [StateBlock.scan_lines negb andb List.length]. rewrite Hc.
  destruct s as [|x s].
  - simpl. now rewrite Nat.add_1_r.
  - rewrite IH; [|discriminate|intros H; apply Hno; now right].
    replace (S pos + List.length (x :: s)) with (pos + S (List.length (x :: s))) by lia.
    reflexivity.
Qed.

(** The state the host builds for the single-line form: one line. *)
Lemma new_single_line_form (m : jsstring) :
  ~ In LF m ->
  StateBlock.new (single_line_form m)
  = StateBlock.mk (single_line_form m)
      [0; 4 + List.length m] [4 + List.length m; 4 + List.length m]
      [0; 0] [0; 0] [0; 0] 0 1 0 [].
Proof.
  intros Hno. unfold StateBlock.new. cbv zeta.
  assert (Hrows : StateBlock.scan_lines (single_line_form m) 0 0 0 0 false
                  = [(0, 4 + List.length m, 0, 0)]).
  { unfold single_line_form.
    change (str "$$" ++ m ++ str "$$") with (DOLLAR :: DOLLAR :: m ++ str "$$").
    cbn [StateBlock.scan_lines]. change (StateBlock.isSpace DOLLAR) with false.
    rewrite !andb_false_r. change (N.eqb DOLLAR LF) with false. cbv iota.
    destruct (m ++ str "$$") as [|x l] eqn:E; [destruct m; discriminate|].
    rewrite <- E. rewrite scan_lines_last.
    - rewrite length_app. simpl.
      replace (List.length m + 2) with (S (S (List.length m))) by lia.
      reflexivity.
    - rewrite E. discriminate.
    - intros H. apply in_app_or in H as [H|H]; [contradiction|].
      simpl in H. destruct H as [H|[H|[]]]; discriminate. }
  rewrite Hrows.
  assert (Hlen : List.length (single_line_form m) = 4 + List.length m).
  { unfold single_line_form. rewrite !length_app. simpl. lia. }
  rewrite Hlen. reflexivity.
Qed.

(** The state the host builds for the multi-line form: three lines, the
    second one with the indentation of [m]. *)
Lemma new_multi_line_form (m : jsstring) :
  ~ In LF m ->
  exists indent offset,
    StateBlock.new (multi_line_form m)
    = StateBlock.mk (multi_line_form m)
        [0; 3; 4 + List.length m; 6 + List.length m]
        [2; 3 + List.length m; 6 + List.length m; 6 + List.length m]
        [0; indent; 0; 0] [0; offset; 0; 0] [0; 0; 0; 0] 0 3 0 []
    /\ blank (firstn indent m).
Proof.
  intros Hno. unfold StateBlock.new. cbv zeta.
  destruct (@scan_lines_line m Hno (str "$$") 3 3 0 0 false)
    as (indent & offset & Hm & _ & _ & Hb).
  rewrite Nat.sub_0_r in Hb.
  exists indent, offset. split; [|exact Hb].
  assert (Hrows : StateBlock.scan_lines (multi_line_form m) 0 0 0 0 false
                  = [(0, 2, 0, 0); (3, 3 + List.length m, indent, offset);
                     (4 + List.length m, 6 + List.length m, 0, 0)]).
  { unfold multi_line_form, nl.
    change (str "$$" ++ [LF] ++ m ++ [LF] ++ str "$$")
      with (DOLLAR :: DOLLAR :: LF :: m ++ LF :: str "$$").
    cbn [StateBlock.scan_lines]. change (StateBlock.isSpace DOLLAR) with false.
    change (StateBlock.isSpace LF) with false.
    rewrite !andb_false_r. change (N.eqb DOLLAR LF) with false.
    change (N.eqb LF LF) with true. cbv iota.
    rewrite Hm. simpl. reflexivity. }
  rewrite Hrows.
  assert (Hlen : List.length (multi_line_form m) = 6 + List.length m).
  { unfold multi_line_form, nl. rewrite !length_app. simpl.
    rewrite (Nat.add_comm _ 3). reflexivity. }
  rewrite Hlen. reflexivity.
Qed.

(** The code units of a part of a text are code units of that part. *)
Lemma slice_within (pre m rest : jsstring) (a b : nat) :
  List.length pre <= a -> b <= List.length pre + List.length m ->
  forall c, In c (slice (pre ++ m ++ rest) a b) -> In c m.
Proof.
  intros Ha Hb c Hin.
  assert (H : Forall (fun x => In x m) (slice (pre ++ m ++ rest) a b)).
  { apply slice_Forall. intros k Hk x Hx. unfold charCodeAt in Hx.
    rewrite nth_error_app2 in Hx by lia. rewrite nth_error_app1 in Hx by lia.
    eapply nth_error_In. exact Hx. }
  rewrite Forall_forall in H. now apply H.
Qed.

(** White space at the start of a text does not change what [trim]
    returns. *)
Lemma trimStart_blank_app (w s : jsstring) : blank w -> trimStart (w ++ s) = trimStart s.
Proof.
  induction 1 as [|c w Hc _ IH]; [reflexivity|]. simpl. now rewrite Hc.
Qed.

Lemma trim_skipn_blank (s : jsstring) (i : nat) :
  blank (firstn i s) -> trim (skipn i s) = trim s.
Proof.
  intros H. unfold trim. f_equal.
  rewrite <- (firstn_skipn i s) at 2. now rewrite trimStart_blank_app.
Qed.

(** The end of a part of a text. *)
Lemma slice_suffix (pre m rest : jsstring) (i : nat) :
  slice (pre ++ m ++ rest) (List.length pre + i) (List.length pre + List.length m)
  = skipn i m.
Proof.
  unfold slice. rewrite skipn_app, skipn_all2 by lia.
  replace (List.length pre + i - List.length pre) with i by lia.
  replace (List.length pre + List.length m - (List.length pre + i))
    with (List.length m - i) by lia.
  cbn [app]. rewrite skipn_app, firstn_app.
  rewrite length_skipn, Nat.sub_diag. cbn [firstn].
  rewrite app_nil_r. apply firstn_all2. rewrite length_skipn. lia.
Qed.

(* ================================================================== *)
(** ** The two block forms *)

(** The rule on the single-line form of a source with no [$$] of its own:
    one token, with the trimmed source, and the line consumed. *)
Lemma run_block_single_line_form (m : jsstring) :
  closes_at_end m -> ~ In LF m ->
  fst (run_block (single_line_form m)) = true
  /\ StateBlock.tokens (snd (run_block (single_line_form m)))
     = [math_block_token (trim m) 1]
  /\ StateBlock.line (snd (run_block (single_line_form m)))
     = StateBlock.lineMax (snd (run_block (single_line_form m))).
Proof.
  intros Hm Hno. unfold run_block. cbv zeta.
  rewrite (@new_single_line_form m Hno). cbn [StateBlock.lineMax].
  rewrite (@blockMathRule_single_line _ 0 1 [] m [] []).
  - repeat split.
  - cbn [StateBlock.src]. unfold single_line_form. now rewrite !app_nil_r.
  - reflexivity.
  - cbn [StateBlock.eMarks nth List.length]. lia.
  - exact Hm.
Qed.

(** The rule on the multi-line form of a source that is not itself a
    closing line: one token, with the trimmed source, and the three lines
    consumed. *)
Lemma run_block_multi_line_form (m : jsstring) :
  trim m <> str "$$" -> ~ In LF m ->
  fst (run_block (multi_line_form m)) = true
  /\ StateBlock.tokens (snd (run_block (multi_line_form m)))
     = [math_block_token (trim m) 3]
  /\ StateBlock.line (snd (run_block (multi_line_form m)))
     = StateBlock.lineMax (snd (run_block (multi_line_form m))).
Proof.
  intros Hm Hno. unfold run_block. cbv zeta.
  destruct (@new_multi_line_form m Hno) as (indent & offset & -> & Hb).
  cbn [StateBlock.lineMax].
  set (state := StateBlock.mk _ _ _ _ _ _ _ _ _ _).
  assert (Hsrc : StateBlock.src state
                 = (str "$$" ++ nl) ++ m ++ (nl ++ str "$$")).
  { unfold state, multi_line_form. cbn [StateBlock.src]. now rewrite <- app_assoc. }
  assert (H1 : line_text state 1 = skipn indent m).
  { unfold line_text. rewrite Hsrc. unfold state.
    cbn [StateBlock.bMarks StateBlock.eMarks StateBlock.tShift nth].
    apply (slice_suffix (str "$$" ++ nl) m (nl ++ str "$$") indent). }
  assert (H2 : line_text state 2 = str "$$").
  { unfold line_text. unfold state at 2 3 4.
    cbn [StateBlock.bMarks StateBlock.eMarks StateBlock.tShift nth].
    replace (StateBlock.src state) with ((str "$$" ++ nl ++ m ++ nl) ++ str "$$" ++ [])
      by (rewrite Hsrc, app_nil_r, <- !app_assoc; reflexivity).
    replace (4 + List.length m + 0) with (List.length (str "$$" ++ nl ++ m ++ nl))
      by (rewrite !length_app; simpl; lia).
    replace (6 + List.length m)
      with (List.length (str "$$" ++ nl ++ m ++ nl) + List.length (str "$$"))
      by (rewrite !length_app; simpl; lia).
    apply slice_middle. }
  assert (Hlines : StateBlock.getLines state (0 + 1) 2
                     (nth 0 (StateBlock.tShift state) 0) false = m).
  { unfold StateBlock.getLines. cbn [Nat.add Nat.sub StateBlock.getLines_from].
    unfold state at 2. cbn [StateBlock.tShift nth].
    rewrite getLine_no_indent, app_nil_r, Hsrc. unfold state.
    cbn [StateBlock.bMarks StateBlock.eMarks nth].
    pose proof (slice_suffix (str "$$" ++ nl) m (nl ++ str "$$") 0) as Hs.
    rewrite Nat.add_0_r in Hs. exact Hs. }
  rewrite (@blockMathRule_multi_line state 0 3 2).
  - rewrite Hlines. repeat split.
  - unfold opening_line, state, multi_line_form.
    cbn [StateBlock.src StateBlock.bMarks StateBlock.eMarks StateBlock.tShift nth].
    split; [lia|]. split; [reflexivity|]. intros p Hp. lia.
  - lia.
  - intros k Hk. assert (Hk1 : k = 1) by lia. subst k.
    rewrite H1, trim_skipn_blank by exact Hb. exact Hm.
  - rewrite H2. reflexivity.
Qed.

(** C5 fails for a math source that has [$$] in it.  For the source
    [a$$b] the single-line form [$$a$$b$$] ends at the first [$$] after
    the opening one and gives a token with content [a], while the
    multi-line form gives a token with content [a$$b]. *)
Lemma block_forms_differ :
  fst (run_block (single_line_form (str "a$$b"))) = true
  /\ fst (run_block (multi_line_form (str "a$$b"))) = true
  /\ StateBlock.tokens (snd (run_block (single_line_form (str "a$$b"))))
     = [math_block_token (str "a") 1]
  /\ StateBlock.tokens (snd (run_block (multi_line_form (str "a$$b"))))
     = [math_block_token (str "a$$b") 3]
  /\ List.map Token.content
       (StateBlock.tokens (snd (run_block (single_line_form (str "a$$b")))))
     <> List.map Token.content
          (StateBlock.tokens (snd (run_block (multi_line_form (str "a$$b"))))).
Proof. repeat split. discriminate. Qed.

(** C5, amended.  Take a math source [a] without a line break and with no
    [$$] of its own (no two dollar signs in a row, none at its end), and a
    math source [b] without a line break whose trimmed text is not [$$].
    On the single-line form [$$a$$] and on the multi-line form
    [$$], [b], [$$] the block rule matches at line 0, consumes every line
    of the document and emits exactly one token, a [math_block] token
    whose content is the trimmed source.  So when [a] and [b] are the same
    after trimming, as [x^2] and [ x^2 ] are, the two token streams have
    the same content and render to the same output, which, when the math
    engine returns, is one [<div class=..katex-block..>] container around
    the engine's markup for the trimmed source in display mode. *)
Theorem block_forms_agree
  (katex : jsstring -> bool -> completion)
  (getLanguage : jsstring -> bool) (hl : jsstring -> jsstring -> completion)
  (default : Token.t -> completion) (a b : jsstring) :
  closes_at_end a -> ~ In LF a ->
  trim b <> str "$$" -> ~ In LF b ->
  let single := run_block (single_line_form a) in
  let multi := run_block (multi_line_form b) in
  fst single = true /\ fst multi = true
  /\ StateBlock.tokens (snd single) = [math_block_token (trim a) 1]
  /\ StateBlock.tokens (snd multi) = [math_block_token (trim b) 3]
  /\ StateBlock.line (snd single) = StateBlock.lineMax (snd single)
  /\ StateBlock.line (snd multi) = StateBlock.lineMax (snd multi)
  /\ (trim a = trim b ->
      List.map Token.content (StateBlock.tokens (snd multi))
      = List.map Token.content (StateBlock.tokens (snd single))
      /\ render katex getLanguage hl default (StateBlock.tokens (snd multi))
         = render katex getLanguage hl default (StateBlock.tokens (snd single)))
  /\ (forall rendered, katex (trim a) true = Returns rendered ->
         render katex getLanguage hl default (StateBlock.tokens (snd single))
         = Returns (str "<div class=" +++ dq "katex-block" +++ str ">" +++ rendered
                      +++ str "</div>")).
Proof.
  intros Ha Hla Hb Hlb single multi.
  destruct (@run_block_single_line_form a Ha Hla) as (Hs1 & Hs2 & Hs3).
  destruct (@run_block_multi_line_form b Hb Hlb) as (Hm1 & Hm2 & Hm3).
  fold single in Hs1, Hs2, Hs3. fold multi in Hm1, Hm2, Hm3.
  rewrite Hs2, Hm2.
  split; [exact Hs1|]. split; [exact Hm1|]. do 2 (split; [reflexivity|]).
  split; [exact Hs3|]. split; [exact Hm3|]. split.
  - intros E. rewrite E. split; reflexivity.
  - intros rendered Hk. cbn [render]. unfold render_rule, math_block.
    cbn [math_block_token Token.type Token.content String.eqb Ascii.eqb Bool.eqb].
    simpl String.eqb. cbv iota. rewrite Hk. simpl. rewrite app_nil_r. reflexivity.
Qed.

Lemma block_forms_agree_witness :
  StateBlock.tokens (snd (run_block (str "$$x^2$$"))) = [math_block_token (str "x^2") 1]
  /\ StateBlock.tokens (snd (run_block (str "$$" +++ nl +++ str " x^2 " +++ nl +++ str "$$")))
     = [math_block_token (str "x^2") 3]
  /\ render (fun s _ => Returns (str "<math>" +++ s +++ str "</math>"))
       (fun _ => false) (fun _ _ => Throws NotAnError) (fun _ => Returns [])
       (StateBlock.tokens (snd (run_block (str "$$x^2$$"))))
     = Returns (str "<div class=" +++ dq "katex-block" +++ str "><math>x^2</math></div>").
Proof.
  destruct (@block_forms_agree
              (fun s _ => Returns (str "<math>" +++ s +++ str "</math>"))
              (fun _ => false) (fun _ _ => Throws NotAnError) (fun _ => Returns [])
              (str "x^2") (str " x^2 "))
    as (_ & _ & Hs & Hm & _ & _ & _ & Hr).
  - apply no_dollar_closes_at_end. simpl. intros H.
    repeat (destruct H as [H|H]; [discriminate|]). exact H.
  - simpl. intros H. repeat (destruct H as [H|H]; [discriminate|]). exact H.
  - discriminate.
  - simpl. intros H. repeat (destruct H as [H|H]; [discriminate|]). exact H.
  - split; [exact Hs|]. split; [exact Hm|].
    apply (Hr (str "<math>x^2</math>")). reflexivity.
Defined.
